(** * Users and Tasks API: the controllers, the validator and the error
      normalizer, embedded from the TypeScript sources

    Sources embedded here:
    - [src/config/database.ts]       the fallback store and its mode flag
    - [src/controllers/userController.ts]
    - [src/controllers/taskController.ts]
    - [src/utils/errorHandler.ts]
    - [models/Task.ts] (the [TaskStatus] enum)

    Modelling conventions.
    - A JavaScript object (request payload, stored document) is a finite map
      from property names to values, [gmap string JSValue]; object spread is
      the left-biased union of maps with the later operand on the left.
    - A JavaScript string is a [string] whose characters are its code units;
      only code units below 256 are representable.  The message literals of
      the sources are copied as they stand in the files; where they hold
      characters outside ASCII these appear as the bytes of their encoding,
      and nothing in the model looks inside a message.
    - [new Date()] and [new mongoose.Types.ObjectId()] are inputs of the
      operation that evaluates them (a time stamp in milliseconds, the
      hexadecimal text of the identifier).
    - A thrown exception is the [Throw] branch of [Result]; controllers are
      state-passing functions over [Store].
    - The calls into the database library and the host's number and date
      formatting are the fields of the class [Platform]. *)

From stdpp Require Import base option list strings gmap fin_maps pretty.
From Stdlib Require Import ZArith QArith.QArith_base Ascii String.

Local Open Scope Z_scope.
Local Open Scope string_scope.
Local Open Scope stdpp_scope.

(* ===================================================================== *)
(** ** JavaScript values                                                  *)
(* ===================================================================== *)

Inductive JSNumber :=
  | NFinite (q : Q)
  | NPosInf
  | NNegInf
  | NNaN.

Inductive JSValue :=
  | VUndefined
  | VNull
  | VBool (b : bool)
  | VNum (n : JSNumber)
  | VStr (s : string)
  | VOid (hex : string)      (* a mongoose.Types.ObjectId *)
  | VDate (ms : Z).          (* a Date *)

(** A plain object: payloads and stored documents. *)
Abbreviation Doc := (gmap string JSValue).

(** Property access [o.k]: a missing property reads as [undefined]. *)
Definition prop (o : Doc) (k : string) : JSValue :=
  default VUndefined (o !! k).

(** [typeof v] *)
Definition typeof (v : JSValue) : string :=
  match v with
  | VUndefined => "undefined"
  | VNull => "object"
  | VBool _ => "boolean"
  | VNum _ => "number"
  | VStr _ => "string"
  | VOid _ => "object"
  | VDate _ => "object"
  end.

Definition num_is_zero (n : JSNumber) : bool :=
  match n with
  | NFinite q => Z.eqb (Qnum q) 0
  | _ => false
  end.

(** ToBoolean: [undefined], [null], [false], [0], [NaN] and the empty string
    are falsy. *)
Definition truthy (v : JSValue) : bool :=
  match v with
  | VUndefined | VNull => false
  | VBool b => b
  | VNum NNaN => false
  | VNum n => negb (num_is_zero n)
  | VStr s => negb (String.eqb s EmptyString)
  | VOid _ | VDate _ => true
  end.

Definition num_eq (a b : JSNumber) : bool :=
  match a, b with
  | NFinite p, NFinite q => Qeq_bool p q
  | NPosInf, NPosInf => true
  | NNegInf, NNegInf => true
  | _, _ => false
  end.

(** Strict equality [a === b].  Objects are compared by identity in
    JavaScript; an ObjectId or Date is identified here with its content.
    Every comparison the controllers make has a string on one side. *)
Definition strict_eq (a b : JSValue) : bool :=
  match a, b with
  | VUndefined, VUndefined => true
  | VNull, VNull => true
  | VBool x, VBool y => Bool.eqb x y
  | VNum x, VNum y => num_eq x y
  | VStr x, VStr y => String.eqb x y
  | VOid x, VOid y => String.eqb x y
  | VDate x, VDate y => Z.eqb x y
  | _, _ => false
  end.

(** [a || b] *)
Definition js_or (a b : JSValue) : JSValue := if truthy a then a else b.

(** [Number.isInteger], [n < 0] and [n > 120] on numbers. *)
Definition Number_isInteger (n : JSNumber) : bool :=
  match n with
  | NFinite q => Z.eqb (Qnum q mod Z.pos (Qden q)) 0
  | _ => false
  end.

Definition num_lt0 (n : JSNumber) : bool :=
  match n with
  | NFinite q => Z.ltb (Qnum q) 0
  | NNegInf => true
  | _ => false
  end.

Definition num_gt (n : JSNumber) (k : Z) : bool :=
  match n with
  | NFinite q => Z.ltb (k * Z.pos (Qden q)) (Qnum q)
  | NPosInf => true
  | _ => false
  end.

(* ===================================================================== *)
(** ** Strings: [trim] and the e-mail pattern                             *)
(* ===================================================================== *)

(** White space and line terminators below code unit 256. *)
Definition is_space (c : ascii) : bool :=
  let n := nat_of_ascii c in
  existsb (Nat.eqb n) [9; 10; 11; 12; 13; 32; 160]%nat.

Fixpoint trimStart (s : string) : string :=
  match s with
  | EmptyString => EmptyString
  | String c s' => if is_space c then trimStart s' else s
  end.

Fixpoint trimEnd (s : string) : string :=
  match s with
  | EmptyString => EmptyString
  | String c s' =>
      match trimEnd s' with
      | EmptyString => if is_space c then EmptyString else String c EmptyString
      | r => String c r
      end
  end.

Definition trim (s : string) : string := trimEnd (trimStart s).

(** Regular expressions over code units, matched by derivatives. *)
Inductive regex :=
  | RNone
  | REps
  | RClass (p : ascii → bool)
  | RSeq (r1 r2 : regex)
  | RAlt (r1 r2 : regex)
  | RStar (r : regex).

Definition RChar (c : ascii) : regex := RClass (Ascii.eqb c).
Definition RPlus (r : regex) : regex := RSeq r (RStar r).
(** [r{2,}] *)
Definition RAtLeast2 (r : regex) : regex := RSeq r (RSeq r (RStar r)).

Fixpoint nullable (r : regex) : bool :=
  match r with
  | RNone => false
  | REps => true
  | RClass _ => false
  | RSeq r1 r2 => nullable r1 && nullable r2
  | RAlt r1 r2 => nullable r1 || nullable r2
  | RStar _ => true
  end.

Fixpoint deriv (c : ascii) (r : regex) : regex :=
  match r with
  | RNone => RNone
  | REps => RNone
  | RClass p => if p c then REps else RNone
  | RSeq r1 r2 =>
      if nullable r1
      then RAlt (RSeq (deriv c r1) r2) (deriv c r2)
      else RSeq (deriv c r1) r2
  | RAlt r1 r2 => RAlt (deriv c r1) (deriv c r2)
  | RStar r1 => RSeq (deriv c r1) (RStar r1)
  end.

(** [/^r$/.test(s)]: without the [m] flag the anchors are the two ends of
    the input. *)
Fixpoint regex_test (r : regex) (s : string) : bool :=
  match s with
  | EmptyString => nullable r
  | String c s' => regex_test (deriv c r) s'
  end.

Definition in_range (lo hi : nat) (c : ascii) : bool :=
  let n := nat_of_ascii c in Nat.leb lo n && Nat.leb n hi.

Definition is_lower := in_range 97 122.
Definition is_upper := in_range 65 90.
Definition is_digit := in_range 48 57.
Definition is_letter (c : ascii) : bool := is_lower c || is_upper c.
Definition one_of (cs : string) (c : ascii) : bool :=
  existsb (Ascii.eqb c) (list_ascii_of_string cs).

(** [[a-zA-Z0-9._%+-]] *)
Definition local_class (c : ascii) : bool :=
  is_letter c || is_digit c || one_of "._%+-" c.
(** [[a-zA-Z0-9.-]] *)
Definition domain_class (c : ascii) : bool :=
  is_letter c || is_digit c || one_of ".-" c.

(** [/^[a-zA-Z0-9._%+-]+@[a-zA-Z0-9.-]+\.[a-zA-Z]{2,}$/] *)
Definition emailRegex : regex :=
  RSeq (RPlus (RClass local_class))
    (RSeq (RChar "@")
      (RSeq (RPlus (RClass domain_class))
        (RSeq (RChar ".") (RAtLeast2 (RClass is_letter))))).

(* ===================================================================== *)
(** ** Errors ([src/utils/errorHandler.ts])                               *)
(* ===================================================================== *)

Inductive ErrorType := VALIDATION | NOT_FOUND | DUPLICATE | SERVER | BAD_REQUEST.

(** The string values of the [ErrorType] enum. *)
Definition ErrorType_value (t : ErrorType) : string :=
  match t with
  | VALIDATION => "ValidationError"
  | NOT_FOUND => "NotFoundError"
  | DUPLICATE => "DuplicateError"
  | SERVER => "ServerError"
  | BAD_REQUEST => "BadRequestError"
  end.

(** The classes [handleError] tests with [instanceof]. *)
Inductive ErrorClass :=
  | MongooseValidationError
  | MongooseCastError
  | OtherError.

(** The [details] of an envelope, and the extra properties of an error. *)
Inductive Details :=
  | DUndefined
  | DMessages (l : list string)
  | DObject (o : Doc)
  | DText (s : string).

(** A thrown error object, with the properties [handleError] reads:
    [e_errors] holds the messages of the values of [error.errors]. *)
Record JSError := mkJSError {
  e_class : ErrorClass;
  e_name : string;
  e_message : string;
  e_code : JSValue;
  e_keyValue : Details;
  e_details : Details;
  e_errors : list string
}.

Record ApiError := mkApiError {
  api_type : ErrorType;
  api_message : string;
  api_details : Details;
  api_status : Z
}.

(** [new Error(message)] *)
Definition new_Error (message : string) : JSError :=
  mkJSError OtherError "Error" message VUndefined DUndefined DUndefined [].

(** [new TypeError(message)], thrown by the host for a property read on
    [undefined] or [null]. *)
Definition new_TypeError (message : string) : JSError :=
  mkJSError OtherError "TypeError" message VUndefined DUndefined DUndefined [].

(** [new AppError(message, name)] *)
Definition new_AppError (message : string) (name : ErrorType) : JSError :=
  mkJSError OtherError (ErrorType_value name) message VUndefined DUndefined DUndefined [].

Module AppError.
Definition notFound (message : string) : JSError := new_AppError message NOT_FOUND.
Definition badRequest (message : string) : JSError := new_AppError message BAD_REQUEST.
Definition validation (message : string) (details : list string) : JSError :=
  let error := new_AppError message VALIDATION in
  mkJSError (e_class error) (e_name error) (e_message error) (e_code error)
            (e_keyValue error) (DMessages details) (e_errors error).
End AppError.

(** [s || fallback] on a message. *)
Definition str_or (s fallback : string) : string :=
  if String.eqb s EmptyString then fallback else s.

(** [error.details || []] *)
Definition details_or_empty (d : Details) : Details :=
  match d with
  | DUndefined => DMessages []
  | DText s => if String.eqb s EmptyString then DMessages [] else d
  | _ => d
  end.

(** [error instanceof cls] *)
Definition instanceof (error : JSError) (cls : ErrorClass) : bool :=
  match e_class error, cls with
  | MongooseValidationError, MongooseValidationError => true
  | MongooseCastError, MongooseCastError => true
  | _, _ => false
  end.

Definition handleError (error : JSError) : ApiError :=
  (* Errores de validación de Mongoose *)
  if instanceof error MongooseValidationError then
    mkApiError VALIDATION "Error de validación" (DMessages (e_errors error)) 400
  (* Errores de clave duplicada de MongoDB *)
  else if strict_eq (e_code error) (VNum (NFinite (Qmake 11000 1))) then
    mkApiError DUPLICATE "Registro duplicado" (e_keyValue error) 409
  (* Errores de ID no válido de Mongoose *)
  else if instanceof error MongooseCastError then
    mkApiError BAD_REQUEST "ID no válido" (DText (e_message error)) 400
  (* Error personalizado para recursos no encontrados *)
  else if String.eqb (e_name error) (ErrorType_value NOT_FOUND) then
    mkApiError NOT_FOUND (str_or (e_message error) "Recurso no encontrado")
               DUndefined 404
  (* Error personalizado para solicitudes incorrectas *)
  else if String.eqb (e_name error) (ErrorType_value BAD_REQUEST) then
    mkApiError BAD_REQUEST (str_or (e_message error) "Solicitud incorrecta")
               DUndefined 400
  (* Error personalizado de validación *)
  else if String.eqb (e_name error) (ErrorType_value VALIDATION) then
    mkApiError VALIDATION (str_or (e_message error) "Error de validación")
               (details_or_empty (e_details error)) 400
  (* Error de servidor por defecto *)
  else
    mkApiError SERVER "Error interno del servidor" (DText (e_message error)) 500.

(** Results of fallible code. *)
Inductive Result (A : Type) :=
  | Ok (a : A)
  | Throw (e : JSError).
Arguments Ok {A} a.
Arguments Throw {A} e.

Definition result_bind {A B} (r : Result A) (k : A → Result B) : Result B :=
  match r with
  | Ok a => k a
  | Throw e => Throw e
  end.

(* ===================================================================== *)
(** ** The validator ([validateUserData], userController.ts)              *)
(* ===================================================================== *)

(** [errors.push(m)] *)
Definition push (errors : list string) (m : string) : list string := errors ++ [m].

Definition validRoles : list string := ["user"; "admin"; "editor"].

Definition validateUserData (userData : Doc) : Result unit :=
  let errors : list string := [] in
  (* Validar nombre *)
  let errors :=
    if negb (truthy (prop userData "name")) then
      push errors "El nombre es obligatorio"
    else
      match prop userData "name" with
      | VStr name =>
          let errors :=
            if Nat.ltb (String.length (trim name)) 2
            then push errors "El nombre debe tener al menos 2 caracteres"
            else errors in
          let errors :=
            if Nat.ltb 50 (String.length (trim name))
            then push errors "El nombre no puede tener más de 50 caracteres"
            else errors in
          errors
      | _ => push errors "El nombre debe ser una cadena de texto"
      end in
  (* Validar email *)
  let errors :=
    if negb (truthy (prop userData "email")) then
      push errors "El email es obligatorio"
    else
      match prop userData "email" with
      | VStr email =>
          if negb (regex_test emailRegex email)
          then push errors "El formato del email no es válido"
          else errors
      | _ => push errors "El email debe ser una cadena de texto"
      end in
  (* Validar edad (opcional) *)
  let errors :=
    if negb (strict_eq (prop userData "age") VUndefined) then
      match prop userData "age" with
      | VNum age =>
          let errors :=
            if negb (Number_isInteger age)
            then push errors "La edad debe ser un número entero"
            else errors in
          let errors :=
            if num_lt0 age
            then push errors "La edad no puede ser negativa"
            else errors in
          let errors :=
            if num_gt age 120
            then push errors "La edad no puede ser mayor a 120 años"
            else errors in
          errors
      | _ => push errors "La edad debe ser un número"
      end
    else errors in
  (* Validar rol (opcional) *)
  let errors :=
    if negb (strict_eq (prop userData "role") VUndefined) then
      match prop userData "role" with
      | VStr role =>
          if negb (existsb (String.eqb role) validRoles)
          then push errors ("El rol '" +:+ role +:+ "' no es válido. Roles válidos: "
                            +:+ String.concat ", " validRoles)
          else errors
      | _ => push errors "El rol debe ser una cadena de texto"
      end
    else errors in
  (* Validar active (opcional) *)
  let errors :=
    if negb (strict_eq (prop userData "active") VUndefined)
       && negb (String.eqb (typeof (prop userData "active")) "boolean")
    then push errors "El campo active debe ser un valor booleano"
    else errors in
  (* Si hay errores, lanzar excepción *)
  if Nat.ltb 0 (List.length errors)
  then Throw (AppError.validation "Error de validación" errors)
  else Ok tt.

(* ===================================================================== *)
(** ** Replies, the platform and the store                                *)
(* ===================================================================== *)

(** A property of a populated task: a plain value, or the embedded user. *)
Inductive PValue :=
  | PVal (v : JSValue)
  | PObj (d : Doc).

Abbreviation PDoc := (gmap string PValue).

Inductive Data :=
  | DataNull
  | DataUser (u : Doc)
  | DataUsers (l : list Doc)
  | DataTask (t : PDoc)
  | DataTasks (l : list PDoc).

(** [{ success: true, data }] and [{ success: true, message }]. *)
Inductive Reply :=
  | ReplyData (data : Data)
  | ReplyMessage (message : string).

(** What the controllers call and the repository does not define: the
    host's conversions of numbers and dates to text, the text of the
    TypeError it throws for a method call on [undefined] or [null], and the
    mongoose model operations on the durable database [DB].  A query returns
    its result; a command also returns the next database.  [User_exists]
    and the [findBy...] operations yield [false] / [None] where mongoose
    resolves to [null]. *)
Class Platform := {
  Number_toString : JSNumber → string;
  Date_toString : Z → string;
  nullish_call_message : string;
  DB : Type;
  User_find : DB → Result (list Doc);
  User_findById : string → DB → Result (option Doc);
  User_save : Doc → DB → Result Doc * DB;
  User_findByIdAndUpdate : string → Doc → DB → Result (option Doc) * DB;
  User_findByIdAndDelete : string → DB → Result (option Doc) * DB;
  User_exists : JSValue → DB → Result bool;
  Task_find_populate : DB → Result (list PDoc);
  Task_findById_populate : JSValue → DB → Result (option PDoc);
  Task_save : Doc → DB → Result Doc * DB;
  Task_findByIdAndUpdate_populate : string → Doc → DB → Result (option PDoc) * DB;
  Task_findByIdAndDelete : string → DB → Result (option PDoc) * DB
}.

#[export] Instance Result_ret : MRet Result := λ A a, Ok a.
#[export] Instance Result_bind : MBind Result := λ A B k r, result_bind r k.

(** The values of the [TaskStatus] enum, [Object.values(TaskStatus)]. *)
Module TaskStatus.
Definition PENDING : string := "pending".
Definition IN_PROGRESS : string := "in_progress".
Definition COMPLETED : string := "completed".
Definition values : list string := [PENDING; IN_PROGRESS; COMPLETED].
End TaskStatus.

(** Array methods whose callback may throw. *)
Fixpoint Array_find {A} (p : A → Result bool) (l : list A) : Result (option A) :=
  match l with
  | [] => Ok None
  | x :: l' => b ← p x; if b : bool then Ok (Some x) else Array_find p l'
  end.

Fixpoint findIndex_from {A} (p : A → Result bool) (i : nat) (l : list A)
  : Result (option nat) :=
  match l with
  | [] => Ok None
  | x :: l' => b ← p x; if b : bool then Ok (Some i) else findIndex_from p (S i) l'
  end.

(** [l.findIndex(p)], with [None] for [-1]. *)
Definition Array_findIndex {A} (p : A → Result bool) (l : list A) : Result (option nat) :=
  findIndex_from p 0 l.

Fixpoint Array_some {A} (p : A → Result bool) (l : list A) : Result bool :=
  match l with
  | [] => Ok false
  | x :: l' => b ← p x; if b : bool then Ok true else Array_some p l'
  end.

Fixpoint Array_map {A B} (f : A → Result B) (l : list A) : Result (list B) :=
  match l with
  | [] => Ok []
  | x :: l' => y ← f x; ys ← Array_map f l'; Ok (y :: ys)
  end.

Fixpoint Array_filter {A} (p : A → Result bool) (l : list A) : Result (list A) :=
  match l with
  | [] => Ok []
  | x :: l' => b ← p x; xs ← Array_filter p l'; Ok (if b : bool then x :: xs else xs)
  end.

(** [l.some((x, i) => p x i)] for a callback that cannot throw. *)
Fixpoint some_from {A} (p : A → nat → bool) (i : nat) (l : list A) : bool :=
  match l with
  | [] => false
  | x :: l' => p x i || some_from p (S i) l'
  end.

Section Controllers.
Context `{P : Platform}.

Definition nullish (v : JSValue) : bool :=
  match v with
  | VUndefined | VNull => true
  | _ => false
  end.

(** [String(v)], the conversion a template literal applies. *)
Definition String_ (v : JSValue) : string :=
  match v with
  | VUndefined => "undefined"
  | VNull => "null"
  | VBool b => if b then "true" else "false"
  | VNum n => Number_toString n
  | VStr s => s
  | VOid hex => hex
  | VDate ms => Date_toString ms
  end.

(** [v.toString()] *)
Definition toString (v : JSValue) : Result string :=
  if nullish v then Throw (new_TypeError nullish_call_message)
  else Ok (String_ v).

(** [v?.toString()] *)
Definition optional_toString (v : JSValue) : JSValue :=
  if nullish v then VUndefined else VStr (String_ v).

(** *** [src/config/database.ts] *)

Record Store := mkStore {
  inMemoryMode : bool;
  inMemoryUsers : list Doc;
  inMemoryTasks : list Doc;
  database : DB
}.

(** A controller action: it ends with a value or a thrown error, and the
    store as it left it. *)
Definition M (A : Type) : Type := Store → Result A * Store.

#[local] Instance M_ret : MRet M := λ A a st, (Ok a, st).
#[local] Instance M_bind : MBind M := λ A B k m st,
  match m st with
  | (Ok a, st') => k a st'
  | (Throw e, st') => (Throw e, st')
  end.

Definition throw {A} (e : JSError) : M A := λ st, (Throw e, st).

Definition lift {A} (r : Result A) : M A := λ st, (r, st).

Definition isInMemoryMode : M bool := λ st, (Ok (inMemoryMode st), st).
Definition getInMemoryUsers : M (list Doc) := λ st, (Ok (inMemoryUsers st), st).
Definition getInMemoryTasks : M (list Doc) := λ st, (Ok (inMemoryTasks st), st).
Definition setInMemoryUsers (users : list Doc) : M unit := λ st,
  (Ok tt, mkStore (inMemoryMode st) users (inMemoryTasks st) (database st)).
Definition setInMemoryTasks (tasks : list Doc) : M unit := λ st,
  (Ok tt, mkStore (inMemoryMode st) (inMemoryUsers st) tasks (database st)).

(** Awaiting a mongoose query or command. *)
Definition query {A} (q : DB → Result A) : M A := λ st, (q (database st), st).
Definition command {A} (c : DB → Result A * DB) : M A := λ st,
  let '(r, d) := c (database st) in
  (r, mkStore (inMemoryMode st) (inMemoryUsers st) (inMemoryTasks st) d).

(** The callback [x => x._id.toString() === id]. *)
Definition id_is (id : string) (x : Doc) : Result bool :=
  s ← toString (prop x "_id"); Ok (String.eqb s id).

(** The callback [x => x._id.toString() !== id]. *)
Definition id_is_not (id : string) (x : Doc) : Result bool :=
  s ← toString (prop x "_id"); Ok (negb (String.eqb s id)).

(** The callback [u => u._id.toString() === v.toString()]. *)
Definition id_is_toString (v : JSValue) (u : Doc) : Result bool :=
  a ← toString (prop u "_id"); b ← toString v; Ok (String.eqb a b).

(** The callback [u => u._id.toString() === v?.toString()]. *)
Definition id_is_optional (v : JSValue) (u : Doc) : Result bool :=
  a ← toString (prop u "_id"); Ok (strict_eq (VStr a) (optional_toString v)).

(** The error thrown for a taken e-mail: [new Error('Email ya registrado')]
    with [code = 11000] and [keyValue = { email }]. *)
Definition duplicate_email (email : JSValue) : JSError :=
  let error := new_Error "Email ya registrado" in
  mkJSError (e_class error) (e_name error) (e_message error)
            (VNum (NFinite (Qmake 11000 1)))
            (DObject {[ "email" := email ]})
            (e_details error) (e_errors error).

(** *** [src/controllers/userController.ts] *)

Definition getAllUsers : M Reply :=
  inMemory ← isInMemoryMode;
  if inMemory : bool then
    users ← getInMemoryUsers;
    mret (ReplyData (DataUsers users))
  else
    users ← query User_find;
    mret (ReplyData (DataUsers users)).

Definition getUserById (id : string) : M Reply :=
  inMemory ← isInMemoryMode;
  if inMemory : bool then
    users ← getInMemoryUsers;
    user ← lift (Array_find (id_is id) users);
    match user with
    | None => throw (AppError.notFound ("Usuario con ID " +:+ id +:+ " no encontrado"))
    | Some user => mret (ReplyData (DataUser user))
    end
  else
    user ← query (User_findById id);
    match user with
    | None => throw (AppError.notFound ("Usuario con ID " +:+ id +:+ " no encontrado"))
    | Some user => mret (ReplyData (DataUser user))
    end.

(** [oid], [createdAt] and [updatedAt] are the values of
    [new mongoose.Types.ObjectId()] and of the two [new Date()]. *)
Definition createUser (oid : string) (createdAt updatedAt : Z) (userData : Doc)
  : M Reply :=
  (* Validar datos del usuario *)
  lift (validateUserData userData);;
  inMemory ← isInMemoryMode;
  if inMemory : bool then
    users ← getInMemoryUsers;
    (* Verificar email único *)
    let existingUser :=
      List.find (λ u, strict_eq (prop u "email") (prop userData "email")) users in
    match existingUser with
    | Some _ => throw (duplicate_email (prop userData "email"))
    | None =>
        (* Crear nuevo usuario con valores por defecto *)
        let newUser : Doc :=
          <["updatedAt" := VDate updatedAt]>
            (<["createdAt" := VDate createdAt]>
               (userData ∪ <["active" := VBool true]>
                             (<["role" := VStr "user"]> {[ "_id" := VOid oid ]}))) in
        setInMemoryUsers (users ++ [newUser]);;
        mret (ReplyData (DataUser newUser))
    end
  else
    user ← command (User_save userData);
    mret (ReplyData (DataUser user)).

Definition updateUser (now : Z) (id : string) (userData : Doc) : M Reply :=
  (* Validar datos del usuario si hay datos para actualizar *)
  (if Nat.ltb 0 (size userData) then lift (validateUserData userData) else mret tt);;
  inMemory ← isInMemoryMode;
  if inMemory : bool then
    users ← getInMemoryUsers;
    userIndex ← lift (Array_findIndex (id_is id) users);
    match userIndex with
    | None => throw (AppError.notFound ("Usuario con ID " +:+ id +:+ " no encontrado"))
    | Some userIndex =>
        (* Verificar email único si se está actualizando *)
        (if truthy (prop userData "email") then
           let emailExists :=
             some_from (λ u i, strict_eq (prop u "email") (prop userData "email")
                               && negb (Nat.eqb i userIndex)) 0 users in
           if emailExists then throw (duplicate_email (prop userData "email"))
           else mret tt
         else mret tt);;
        let updatedUser : Doc :=
          <["updatedAt" := VDate now]>
            (userData ∪ default ∅ (users !! userIndex)) in
        setInMemoryUsers (<[userIndex := updatedUser]> users);;
        mret (ReplyData (DataUser updatedUser))
    end
  else
    user ← command (User_findByIdAndUpdate id userData);
    match user with
    | None => throw (AppError.notFound ("Usuario con ID " +:+ id +:+ " no encontrado"))
    | Some user => mret (ReplyData (DataUser user))
    end.

Definition deleteUser (id : string) : M Reply :=
  inMemory ← isInMemoryMode;
  if inMemory : bool then
    users ← getInMemoryUsers;
    userIndex ← lift (Array_findIndex (id_is id) users);
    match userIndex with
    | None => throw (AppError.notFound ("Usuario con ID " +:+ id +:+ " no encontrado"))
    | Some _ =>
        kept ← lift (Array_filter (id_is_not id) users);
        setInMemoryUsers kept;;
        mret (ReplyMessage ("Usuario con ID " +:+ id +:+ " eliminado correctamente"))
    end
  else
    user ← command (User_findByIdAndDelete id);
    match user with
    | None => throw (AppError.notFound ("Usuario con ID " +:+ id +:+ " no encontrado"))
    | Some _ =>
        mret (ReplyMessage ("Usuario con ID " +:+ id +:+ " eliminado correctamente"))
    end.

(** *** [src/controllers/taskController.ts] *)

(** [{ ...task, user }] where [user] is what [users.find] returned. *)
Definition with_user (task : Doc) (user : option Doc) : PDoc :=
  <["user" := match user with
              | Some u => PObj u
              | None => PVal VUndefined
              end]> (PVal <$> task).

(** [{ ...task, user: users.find(...) || task.user }] *)
Definition with_user_or_id (task : Doc) (user : option Doc) : PDoc :=
  <["user" := match user with
              | Some u => PObj u
              | None => PVal (prop task "user")
              end]> (PVal <$> task).

Definition getAllTasks : M Reply :=
  inMemory ← isInMemoryMode;
  if inMemory : bool then
    tasks ← getInMemoryTasks;
    users ← getInMemoryUsers;
    (* Simular populate *)
    populatedTasks ← lift (Array_map (λ task,
      user ← Array_find (id_is_toString (prop task "user")) users;
      Ok (with_user_or_id task user)) tasks);
    mret (ReplyData (DataTasks populatedTasks))
  else
    tasks ← query Task_find_populate;
    mret (ReplyData (DataTasks tasks)).

Definition getTaskById (id : string) : M Reply :=
  inMemory ← isInMemoryMode;
  if inMemory : bool then
    tasks ← getInMemoryTasks;
    users ← getInMemoryUsers;
    task ← lift (Array_find (id_is id) tasks);
    match task with
    | None => throw (AppError.notFound ("Tarea con ID " +:+ id +:+ " no encontrada"))
    | Some task =>
        (* Simular populate *)
        user ← lift (Array_find (id_is_toString (prop task "user")) users);
        mret (ReplyData (DataTask (with_user_or_id task user)))
    end
  else
    task ← query (Task_findById_populate (VStr id));
    match task with
    | None => throw (AppError.notFound ("Tarea con ID " +:+ id +:+ " no encontrada"))
    | Some task => mret (ReplyData (DataTask task))
    end.

Definition createTask (oid : string) (createdAt updatedAt : Z) (taskData : Doc)
  : M Reply :=
  inMemory ← isInMemoryMode;
  if inMemory : bool then
    users ← getInMemoryUsers;
    tasks ← getInMemoryTasks;
    (* Verificar que el usuario existe *)
    userExists ← lift (Array_some (id_is_optional (prop taskData "user")) users);
    if negb userExists then
      throw (AppError.badRequest
               ("Usuario con ID " +:+ String_ (prop taskData "user") +:+ " no existe"))
    else
      let userId := prop taskData "user" in
      let newTask : Doc :=
        <["updatedAt" := VDate updatedAt]>
          (<["createdAt" := VDate createdAt]>
            (<["user" := userId]>
              (<["status" := js_or (prop taskData "status") (VStr TaskStatus.PENDING)]>
                (<["description" := js_or (prop taskData "description") (VStr EmptyString)]>
                  (<["title" := js_or (prop taskData "title") (VStr EmptyString)]>
                    {[ "_id" := VOid oid ]}))))) in
      setInMemoryTasks (tasks ++ [newTask]);;
      (* Simular populate *)
      user ← lift (Array_find (id_is_toString userId) users);
      mret (ReplyData (DataTask (with_user newTask user)))
  else
    (* Verificar que el usuario existe *)
    userExists ← query (User_exists (prop taskData "user"));
    if negb userExists then
      throw (AppError.badRequest
               ("Usuario con ID " +:+ String_ (prop taskData "user") +:+ " no existe"))
    else
      task ← command (Task_save taskData);
      populatedTask ← query (Task_findById_populate (prop task "_id"));
      mret (ReplyData (match populatedTask with
                       | Some t => DataTask t
                       | None => DataNull
                       end)).

Definition updateTask (now : Z) (id : string) (taskData : Doc) : M Reply :=
  inMemory ← isInMemoryMode;
  if inMemory : bool then
    tasks ← getInMemoryTasks;
    users ← getInMemoryUsers;
    taskIndex ← lift (Array_findIndex (id_is id) tasks);
    match taskIndex with
    | None => throw (AppError.notFound ("Tarea con ID " +:+ id +:+ " no encontrada"))
    | Some taskIndex =>
        (* Si se está actualizando el usuario, verificar que existe *)
        (if truthy (prop taskData "user") then
           userExists ← lift (Array_some (id_is_optional (prop taskData "user")) users);
           if negb userExists then
             throw (AppError.badRequest
                      ("Usuario con ID " +:+ String_ (prop taskData "user") +:+ " no existe"))
           else mret tt
         else mret tt);;
        let updatedTask : Doc :=
          <["updatedAt" := VDate now]>
            (taskData ∪ default ∅ (tasks !! taskIndex)) in
        setInMemoryTasks (<[taskIndex := updatedTask]> tasks);;
        (* Simular populate *)
        user ← lift (Array_find (id_is_toString (prop updatedTask "user")) users);
        mret (ReplyData (DataTask (with_user updatedTask user)))
    end
  else
    (* Si se está actualizando el usuario, verificar que existe *)
    (if truthy (prop taskData "user") then
       userExists ← query (User_exists (prop taskData "user"));
       if negb userExists then
         throw (AppError.badRequest
                  ("Usuario con ID " +:+ String_ (prop taskData "user") +:+ " no existe"))
       else mret tt
     else mret tt);;
    task ← command (Task_findByIdAndUpdate_populate id taskData);
    match task with
    | None => throw (AppError.notFound ("Tarea con ID " +:+ id +:+ " no encontrada"))
    | Some task => mret (ReplyData (DataTask task))
    end.

Definition updateTaskStatus (now : Z) (id : string) (status : string) : M Reply :=
  if negb (existsb (String.eqb status) TaskStatus.values) then
    throw (AppError.badRequest ("Estado '" +:+ status +:+ "' no v치lido"))
  else
    inMemory ← isInMemoryMode;
    if inMemory : bool then
      tasks ← getInMemoryTasks;
      users ← getInMemoryUsers;
      taskIndex ← lift (Array_findIndex (id_is id) tasks);
      match taskIndex with
      | None => throw (AppError.notFound ("Tarea con ID " +:+ id +:+ " no encontrada"))
      | Some taskIndex =>
          let updatedTask : Doc :=
            <["updatedAt" := VDate now]>
              (<["status" := VStr status]> (default ∅ (tasks !! taskIndex))) in
          setInMemoryTasks (<[taskIndex := updatedTask]> tasks);;
          (* Simular populate *)
          user ← lift (Array_find (id_is_toString (prop updatedTask "user")) users);
          mret (ReplyData (DataTask (with_user updatedTask user)))
      end
    else
      task ← command (Task_findByIdAndUpdate_populate id {[ "status" := VStr status ]});
      match task with
      | None => throw (AppError.notFound ("Tarea con ID " +:+ id +:+ " no encontrada"))
      | Some task => mret (ReplyData (DataTask task))
      end.

Definition moveTaskToUser (now : Z) (id : string) (userId : string) : M Reply :=
  inMemory ← isInMemoryMode;
  if inMemory : bool then
    tasks ← getInMemoryTasks;
    users ← getInMemoryUsers;
    (* Verificar que el usuario existe *)
    userExists ← lift (Array_some (id_is userId) users);
    if negb userExists then
      throw (AppError.badRequest ("Usuario con ID " +:+ userId +:+ " no existe"))
    else
      taskIndex ← lift (Array_findIndex (id_is id) tasks);
      match taskIndex with
      | None => throw (AppError.notFound ("Tarea con ID " +:+ id +:+ " no encontrada"))
      | Some taskIndex =>
          let updatedTask : Doc :=
            <["updatedAt" := VDate now]>
              (<["user" := VStr userId]> (default ∅ (tasks !! taskIndex))) in
          setInMemoryTasks (<[taskIndex := updatedTask]> tasks);;
          (* Simular populate *)
          user ← lift (Array_find (id_is userId) users);
          mret (ReplyData (DataTask (with_user updatedTask user)))
      end
  else
    (* Verificar que el usuario existe *)
    userExists ← query (User_exists (VStr userId));
    if negb userExists then
      throw (AppError.badRequest ("Usuario con ID " +:+ userId +:+ " no existe"))
    else
      task ← command (Task_findByIdAndUpdate_populate id {[ "user" := VStr userId ]});
      match task with
      | None => throw (AppError.notFound ("Tarea con ID " +:+ id +:+ " no encontrada"))
      | Some task => mret (ReplyData (DataTask task))
      end.

Definition deleteTask (id : string) : M Reply :=
  inMemory ← isInMemoryMode;
  if inMemory : bool then
    tasks ← getInMemoryTasks;
    taskIndex ← lift (Array_findIndex (id_is id) tasks);
    match taskIndex with
    | None => throw (AppError.notFound ("Tarea con ID " +:+ id +:+ " no encontrada"))
    | Some _ =>
        kept ← lift (Array_filter (id_is_not id) tasks);
        setInMemoryTasks kept;;
        mret (ReplyMessage ("Tarea con ID " +:+ id +:+ " eliminada correctamente"))
    end
  else
    task ← command (Task_findByIdAndDelete id);
    match task with
    | None => throw (AppError.notFound ("Tarea con ID " +:+ id +:+ " no encontrada"))
    | Some _ =>
        mret (ReplyMessage ("Tarea con ID " +:+ id +:+ " eliminada correctamente"))
    end.

End Controllers.

(* ===================================================================== *)
(** ** Definitions used to state the properties                           *)
(* ===================================================================== *)

(** *** The validation rules, one field each (spec, section 4.2) *)

Definition nameViolations (name : JSValue) : list string :=
  if negb (truthy name) then ["El nombre es obligatorio"]
  else match name with
       | VStr s =>
           (if Nat.ltb (String.length (trim s)) 2
            then ["El nombre debe tener al menos 2 caracteres"] else [])
           ++ (if Nat.ltb 50 (String.length (trim s))
               then ["El nombre no puede tener más de 50 caracteres"] else [])
       | _ => ["El nombre debe ser una cadena de texto"]
       end.

Definition emailViolations (email : JSValue) : list string :=
  if negb (truthy email) then ["El email es obligatorio"]
  else match email with
       | VStr s =>
           if regex_test emailRegex s then []
           else ["El formato del email no es válido"]
       | _ => ["El email debe ser una cadena de texto"]
       end.

Definition ageViolations (age : JSValue) : list string :=
  match age with
  | VUndefined => []
  | VNum n =>
      (if Number_isInteger n then [] else ["La edad debe ser un número entero"])
      ++ (if num_lt0 n then ["La edad no puede ser negativa"] else [])
      ++ (if num_gt n 120 then ["La edad no puede ser mayor a 120 años"] else [])
  | _ => ["La edad debe ser un número"]
  end.

Definition roleViolations (role : JSValue) : list string :=
  match role with
  | VUndefined => []
  | VStr r =>
      if existsb (String.eqb r) validRoles then []
      else ["El rol '" +:+ r +:+ "' no es válido. Roles válidos: user, admin, editor"]
  | _ => ["El rol debe ser una cadena de texto"]
  end.

Definition activeViolations (active : JSValue) : list string :=
  match active with
  | VUndefined | VBool _ => []
  | _ => ["El campo active debe ser un valor booleano"]
  end.

(** Every violation of a payload, rule after rule. *)
Definition violations (userData : Doc) : list string :=
  nameViolations (prop userData "name")
  ++ emailViolations (prop userData "email")
  ++ ageViolations (prop userData "age")
  ++ roleViolations (prop userData "role")
  ++ activeViolations (prop userData "active").

(** The five sections of [validateUserData] as transformers of the
    [errors] array, to reason about the function section by section
    ([validateUserData_sections] below). *)
Definition name_section (userData : Doc) (errors : list string) : list string :=
  if negb (truthy (prop userData "name")) then
    push errors "El nombre es obligatorio"
  else
    match prop userData "name" with
    | VStr name =>
        let errors :=
          if Nat.ltb (String.length (trim name)) 2
          then push errors "El nombre debe tener al menos 2 caracteres"
          else errors in
        let errors :=
          if Nat.ltb 50 (String.length (trim name))
          then push errors "El nombre no puede tener más de 50 caracteres"
          else errors in
        errors
    | _ => push errors "El nombre debe ser una cadena de texto"
    end.

Definition email_section (userData : Doc) (errors : list string) : list string :=
  if negb (truthy (prop userData "email")) then
    push errors "El email es obligatorio"
  else
    match prop userData "email" with
    | VStr email =>
        if negb (regex_test emailRegex email)
        then push errors "El formato del email no es válido"
        else errors
    | _ => push errors "El email debe ser una cadena de texto"
    end.

Definition age_section (userData : Doc) (errors : list string) : list string :=
  if negb (strict_eq (prop userData "age") VUndefined) then
    match prop userData "age" with
    | VNum age =>
        let errors :=
          if negb (Number_isInteger age)
          then push errors "La edad debe ser un número entero"
          else errors in
        let errors :=
          if num_lt0 age
          then push errors "La edad no puede ser negativa"
          else errors in
        let errors :=
          if num_gt age 120
          then push errors "La edad no puede ser mayor a 120 años"
          else errors in
        errors
    | _ => push errors "La edad debe ser un número"
    end
  else errors.

Definition role_section (userData : Doc) (errors : list string) : list string :=
  if negb (strict_eq (prop userData "role") VUndefined) then
    match prop userData "role" with
    | VStr role =>
        if negb (existsb (String.eqb role) validRoles)
        then push errors ("El rol '" +:+ role +:+ "' no es válido. Roles válidos: "
                          +:+ String.concat ", " validRoles)
        else errors
    | _ => push errors "El rol debe ser una cadena de texto"
    end
  else errors.

Definition active_section (userData : Doc) (errors : list string) : list string :=
  if negb (strict_eq (prop userData "active") VUndefined)
     && negb (String.eqb (typeof (prop userData "active")) "boolean")
  then push errors "El campo active debe ser un valor booleano"
  else errors.

(** *** Error categories (spec, section 4.4) *)

(** The error matches one of the categories [handleError] knows. *)
Definition known_category (error : JSError) : bool :=
  instanceof error MongooseValidationError
  || strict_eq (e_code error) (VNum (NFinite (Qmake 11000 1)))
  || instanceof error MongooseCastError
  || String.eqb (e_name error) "NotFoundError"
  || String.eqb (e_name error) "BadRequestError"
  || String.eqb (e_name error) "ValidationError".

(** The status each envelope type goes with (spec, section 7). *)
Definition status_of (t : ErrorType) : Z :=
  match t with
  | VALIDATION => 400
  | BAD_REQUEST => 400
  | NOT_FOUND => 404
  | DUPLICATE => 409
  | SERVER => 500
  end.

(** *** Case normalization of e-mails (spec, section 3) *)

Definition lower_char (c : ascii) : ascii :=
  if is_upper c then ascii_of_nat (nat_of_ascii c + 32) else c.

Fixpoint toLowerCase (s : string) : string :=
  match s with
  | EmptyString => EmptyString
  | String c s' => String (lower_char c) (toLowerCase s')
  end.

(** The case-normalized e-mail of a stored user. *)
Definition normalized_email (u : Doc) : option string :=
  match prop u "email" with
  | VStr s => Some (toLowerCase s)
  | _ => None
  end.

(** No two stored users share a case-normalized e-mail. *)
Definition email_unique (users : list Doc) : Prop :=
  ∀ i j u v e, users !! i = Some u → users !! j = Some v →
    normalized_email u = Some e → normalized_email v = Some e → i = j.

(** No two stored users hold the same e-mail text. *)
Definition email_text_unique (users : list Doc) : Prop :=
  ∀ i j u v e, users !! i = Some u → users !! j = Some v →
    prop u "email" = VStr e → prop v "email" = VStr e → i = j.

(** *** A concrete platform

    The platform the closed examples run on: a host in the UTC time zone,
    whose durable database holds no document and refuses every write.
    Numbers print as [Number.prototype.toString] prints the binary64 value
    nearest to them (the shortest digits that read back as that value),
    dates as [Date.prototype.toString] prints them. *)

Definition refused : JSError := new_Error "write refused".

(** Positive rationals as pairs [(n, d)] of positive integers. *)

(** [n/d * 2^s] *)
Definition scale2 (x : Z * Z) (s : Z) : Z * Z :=
  if Z.leb 0 s then (x.1 * 2 ^ s, x.2) else (x.1, x.2 * 2 ^ (- s)).

(** [n/d * 10^s] *)
Definition scale10 (x : Z * Z) (s : Z) : Z * Z :=
  if Z.leb 0 s then (x.1 * 10 ^ s, x.2) else (x.1, x.2 * 10 ^ (- s)).

Definition frac_leb (x y : Z * Z) : bool := Z.leb (x.1 * y.2) (y.1 * x.2).
Definition frac_eqb (x y : Z * Z) : bool := Z.eqb (x.1 * y.2) (y.1 * x.2).

(** The integer nearest to [n/d], ties to even. *)
Definition round_half_even (x : Z * Z) : Z :=
  let q := x.1 / x.2 in
  let r := x.1 mod x.2 in
  if Z.ltb (2 * r) (x.2) then q
  else if Z.ltb x.2 (2 * r) then q + 1
  else if Z.even q then q else q + 1.

(** The binary64 value nearest to a positive rational, ties to even;
    [None] when it rounds to Infinity. *)
Definition to_double (x : Z * Z) : option (Z * Z) :=
  let e0 := Z.log2 x.1 - Z.log2 x.2 in
  let e := if frac_leb (scale2 (1, 1) e0) x then e0 else e0 - 1 in
  let qe := Z.max (e - 52) (-1074) in
  let m := round_half_even (scale2 x (- qe)) in
  let v := scale2 (m, 1) qe in
  if frac_leb (scale2 (1, 1) 1024) v then None else Some v.

(** The [n] with [10^(n-1) <= x < 10^n], searched upwards from a lower
    estimate. *)
Fixpoint exponent10_from (fuel : nat) (x : Z * Z) (k : Z) : Z :=
  match fuel with
  | O => k
  | S fuel' =>
      if frac_leb (scale10 (1, 1) k) x then exponent10_from fuel' x (k + 1) else k
  end.

Definition exponent10 (x : Z * Z) : Z :=
  let est := (Z.log2 x.1 - Z.log2 x.2 - 1) * 30102 / 100000 - 1 in
  exponent10_from 8 x est.

Definition dist (x y : Z * Z) : Z * Z :=
  (Z.abs (x.1 * y.2 - y.1 * x.2), x.2 * y.2).

(** With [k] digits: the integer [s] with [s * 10^(n-k)] rounding to the
    double [x], the closest to [x] when there are two. *)
Definition digits_at (x : Z * Z) (n : Z) (k : Z) : option Z :=
  let scaled := scale10 x (k - n) in
  let lo := scaled.1 / scaled.2 in
  let hi := lo + 1 in
  let value s := scale10 (s, 1) (n - k) in
  let ok s := (Z.ltb 0 s) && match to_double (value s) with
                          | Some v => frac_eqb v x
                          | None => false
                          end in
  match ok lo, ok hi with
  | true, true =>
      if frac_leb (dist (value lo) x) (dist (value hi) x) then Some lo else Some hi
  | true, false => Some lo
  | false, true => Some hi
  | false, false => None
  end.

Fixpoint shortest_from (fuel : nat) (x : Z * Z) (n : Z) (k : Z) : Z * Z :=
  match fuel with
  | O => (round_half_even (scale10 x (k - n)), k)
  | S fuel' =>
      match digits_at x n k with
      | Some s => (s, k)
      | None => shortest_from fuel' x n (k + 1)
      end
  end.

Fixpoint strip_zeros (fuel : nat) (s k : Z) : Z * Z :=
  match fuel with
  | O => (s, k)
  | S fuel' => if (Z.eqb (s mod 10) (0)) && (Z.ltb 1 k) then strip_zeros fuel' (s / 10) (k - 1)
               else (s, k)
  end.

Definition zeros (n : Z) : string := String.concat EmptyString (replicate (Z.to_nat n) "0").

(** Number::toString for a positive double [x] (ECMA-262, radix 10). *)
Definition positive_text (x : Z * Z) : string :=
  let n0 := exponent10 x in
  let '(s0, k0) := shortest_from 17 x n0 1 in
  (* a candidate that rounded up to a power of ten has one digit more *)
  let ds0 := pretty s0 in
  let len := Z.of_nat (String.length ds0) in
  let n := n0 + (len - k0) in
  let '(s, k) := strip_zeros 20 s0 len in
  let ds := pretty s in
  if (Z.leb k n) && (Z.leb n 21) then ds +:+ zeros (n - k)
  else if (Z.ltb 0 n) && (Z.leb n 21) then
    substring 0 (Z.to_nat n) ds +:+ "." +:+ substring (Z.to_nat n) (Z.to_nat (k - n)) ds
  else if (Z.ltb (-6) n) && (Z.leb n 0) then "0." +:+ zeros (- n) +:+ ds
  else
    let e := n - 1 in
    let sign := if Z.leb 0 e then "+" else "-" in
    let mant := if Z.eqb k 1 then ds
                else substring 0 1 ds +:+ "." +:+ substring 1 (Z.to_nat (k - 1)) ds in
    mant +:+ "e" +:+ sign +:+ pretty (Z.abs e).

Definition finite_text (q : Q) : string :=
  let n := Qnum q in
  let d := Z.pos (Qden q) in
  if Z.eqb n 0 then "0"
  else
    match to_double (Z.abs n, d) with
    | None => if Z.ltb n 0 then "-Infinity" else "Infinity"
    | Some v =>
        if Z.eqb v.1 0 then "0"
        else (if Z.ltb n 0 then "-" else EmptyString) +:+ positive_text v
    end.

(** [Number.prototype.toString] *)
Definition number_text (n : JSNumber) : string :=
  match n with
  | NFinite q => finite_text q
  | NPosInf => "Infinity"
  | NNegInf => "-Infinity"
  | NNaN => "NaN"
  end.

(** [Date.prototype.toString] on a host whose time zone is UTC. *)
Definition pad (width : nat) (z : Z) : string :=
  let ds := pretty z in
  String.concat EmptyString (replicate (width - String.length ds) "0") +:+ ds.

Definition day_names : list string := ["Sun"; "Mon"; "Tue"; "Wed"; "Thu"; "Fri"; "Sat"].
Definition month_names : list string :=
  ["Jan"; "Feb"; "Mar"; "Apr"; "May"; "Jun"; "Jul"; "Aug"; "Sep"; "Oct"; "Nov"; "Dec"].

(** Year, month (1 to 12) and day of the month of a day number counted
    from 1 January 1970. *)
Definition civil_from_days (days : Z) : Z * Z * Z :=
  let z := days + 719468 in
  let era := z / 146097 in
  let doe := z - era * 146097 in
  let yoe := (doe - doe / 1460 + doe / 36524 - doe / 146096) / 365 in
  let doy := doe - (365 * yoe + yoe / 4 - yoe / 100) in
  let mp := (5 * doy + 2) / 153 in
  let d := doy - (153 * mp + 2) / 5 + 1 in
  let m := if Z.ltb mp 10 then mp + 3 else mp - 9 in
  let y := yoe + era * 400 + (if Z.leb m 2 then 1 else 0) in
  (y, m, d).

Definition date_text (ms : Z) : string :=
  if Z.ltb 8640000000000000 (Z.abs ms) then "Invalid Date"
  else
    let days := ms / 86400000 in
    let rest := ms mod 86400000 in
    let '(y, m, d) := civil_from_days days in
    let weekday := (days + 4) mod 7 in
    default EmptyString (day_names !! Z.to_nat weekday) +:+ " "
    +:+ default EmptyString (month_names !! Z.to_nat (m - 1)) +:+ " "
    +:+ pad 2 d +:+ " "
    +:+ (if Z.ltb y 0 then "-" else EmptyString) +:+ pad 4 (Z.abs y) +:+ " "
    +:+ pad 2 (rest / 3600000) +:+ ":" +:+ pad 2 (rest / 60000 mod 60) +:+ ":"
    +:+ pad 2 (rest / 1000 mod 60)
    +:+ " GMT+0000 (Coordinated Universal Time)".

Definition empty_platform : Platform := {|
  Number_toString := number_text;
  Date_toString := date_text;
  nullish_call_message := "undefined is not an object";
  DB := unit;
  User_find := λ _, Ok [];
  User_findById := λ _ _, Ok None;
  User_save := λ _ d, (Throw refused, d);
  User_findByIdAndUpdate := λ _ _ d, (Ok None, d);
  User_findByIdAndDelete := λ _ d, (Ok None, d);
  User_exists := λ _ _, Ok false;
  Task_find_populate := λ _, Ok [];
  Task_findById_populate := λ _ _, Ok None;
  Task_save := λ _ d, (Throw refused, d);
  Task_findByIdAndUpdate_populate := λ _ _ d, (Ok None, d);
  Task_findByIdAndDelete := λ _ d, (Ok None, d)
|}.

(** The fallback store right after start-up, and the durable one. *)
Definition fallback0 : @Store empty_platform := @mkStore empty_platform true [] [] tt.
Definition durable0 : @Store empty_platform := @mkStore empty_platform false [] [] tt.

Definition ann : Doc :=
  {[ "name" := VStr "Ann Lee"; "email" := VStr "ann@example.com" ]}.
Definition ANN : Doc :=
  {[ "name" := VStr "Ann Lee"; "email" := VStr "ANN@example.com" ]}.

(** Identifiers the examples use. *)
Definition U1 : string := "65a000000000000000000001".
Definition U2 : string := "65a000000000000000000002".
Definition T1 : string := "65b000000000000000000001".

Definition report : Doc :=
  {[ "title" := VStr "Write report"; "user" := VStr U1 ]}.

(** A task for a user nobody registered. *)
Definition orphan_report : Doc :=
  {[ "title" := VStr "Write report"; "user" := VStr U2 ]}.

(** The store an action leaves. *)
Definition after {A} (m : @M empty_platform A) (st : @Store empty_platform)
  : @Store empty_platform := (m st).2.

(** Ann is registered at time 1; a task is created for her at time 2; then
    her account is deleted, which leaves the task with a user id that no
    longer resolves. *)
Definition with_ann : @Store empty_platform := after (createUser U1 1 1 ann) fallback0.
Definition with_task : @Store empty_platform := after (createTask T1 2 2 report) with_ann.
Definition dangling : @Store empty_platform := after (deleteUser U1) with_task.

(** A second user, registered at time 3. *)
Definition bob : Doc :=
  {[ "name" := VStr "Bob Ray"; "email" := VStr "bob@example.com" ]}.
Definition with_bob : @Store empty_platform := after (createUser U2 3 3 bob) with_task.



(** The task stored by [with_task]. *)
Definition task1 : Doc :=
  <["updatedAt" := VDate 2]>
    (<["createdAt" := VDate 2]>
      (<["user" := VStr U1]>
        (<["status" := VStr "pending"]>
          (<["description" := VStr EmptyString]>
            (<["title" := VStr "Write report"]> {[ "_id" := VOid T1 ]}))))).

(** *** The existence probes and the lookups by id *)

Section Probes.
Context `{P : Platform}.

(** The user-existence probe of [createTask] and [updateTask], in the mode
    the store is in: [users.some(u => u._id.toString() ===
    user?.toString())] or [User.exists({ _id: user })]. *)
Definition userExists (st : Store) (user : JSValue) : Result bool :=
  if inMemoryMode st
  then Array_some (id_is_optional user) (inMemoryUsers st)
  else User_exists user (database st).

(** The probe of [moveTaskToUser], whose [userId] is a string. *)
Definition userIdExists (st : Store) (userId : string) : Result bool :=
  if inMemoryMode st
  then Array_some (id_is userId) (inMemoryUsers st)
  else User_exists (VStr userId) (database st).

(** The task lookup [tasks.findIndex(t => t._id.toString() === id)] of the
    fallback store. *)
Definition taskIndex (st : Store) (id : string) : Result (option nat) :=
  Array_findIndex (id_is id) (inMemoryTasks st).

(** The user lookup [users.findIndex(u => u._id.toString() === id)]. *)
Definition userIndex (st : Store) (id : string) : Result (option nat) :=
  Array_findIndex (id_is id) (inMemoryUsers st).

(** The record [createUser] builds in fallback mode. *)
Definition newUser (oid : string) (createdAt updatedAt : Z) (userData : Doc) : Doc :=
  <["updatedAt" := VDate updatedAt]>
    (<["createdAt" := VDate createdAt]>
       (userData ∪ <["active" := VBool true]>
                     (<["role" := VStr "user"]> {[ "_id" := VOid oid ]}))).

End Probes.

(* ===================================================================== *)
(** ** The rest of the sources: start-up, the error middleware, and the
       operations as one family                                           *)
(* ===================================================================== *)

(** *** [errorMiddleware] ([src/utils/errorHandler.ts]) *)

(** [{ type, message, details }] *)
Record ErrorInfo := mkErrorInfo {
  info_type : ErrorType;
  info_message : string;
  info_details : Details
}.

(** [{ success: false, error }] *)
Record ErrorReply := mkErrorReply {
  reply_success : bool;
  reply_error : ErrorInfo
}.

(** The [onError] hook: the status it writes to [set.status] and the body
    it returns. *)
Definition errorMiddleware (error : JSError) : Z * ErrorReply :=
  let apiError := handleError error in
  let status := api_status apiError in
  (status,
   mkErrorReply false
     (mkErrorInfo (api_type apiError) (api_message apiError) (api_details apiError))).

Section Startup.
Context `{P : Platform}.

(** *** [connectDB] ([src/config/database.ts]); [connected] tells whether
    [mongoose.connect] resolved, a rejection being caught. *)
Definition connectDB (connected : bool) : M unit := λ st,
  if connected then (Ok tt, st)
  else (Ok tt, mkStore true (inMemoryUsers st) (inMemoryTasks st) (database st)).

(** *** The controller operations, with the arguments the routes pass and
    the identifiers and times the operation draws. *)
Inductive Operation :=
  | GetAllUsers
  | GetUserById (id : string)
  | CreateUser (oid : string) (createdAt updatedAt : Z) (userData : Doc)
  | UpdateUser (now : Z) (id : string) (userData : Doc)
  | DeleteUser (id : string)
  | GetAllTasks
  | GetTaskById (id : string)
  | CreateTask (oid : string) (createdAt updatedAt : Z) (taskData : Doc)
  | UpdateTask (now : Z) (id : string) (taskData : Doc)
  | UpdateTaskStatus (now : Z) (id : string) (status : string)
  | MoveTaskToUser (now : Z) (id : string) (userId : string)
  | DeleteTask (id : string).

Definition perform (op : Operation) : M Reply :=
  match op with
  | GetAllUsers => getAllUsers
  | GetUserById id => getUserById id
  | CreateUser oid createdAt updatedAt userData =>
      createUser oid createdAt updatedAt userData
  | UpdateUser now id userData => updateUser now id userData
  | DeleteUser id => deleteUser id
  | GetAllTasks => getAllTasks
  | GetTaskById id => getTaskById id
  | CreateTask oid createdAt updatedAt taskData =>
      createTask oid createdAt updatedAt taskData
  | UpdateTask now id taskData => updateTask now id taskData
  | UpdateTaskStatus now id status => updateTaskStatus now id status
  | MoveTaskToUser now id userId => moveTaskToUser now id userId
  | DeleteTask id => deleteTask id
  end.

(** The operations of the user controller. *)
Definition is_user_operation (op : Operation) : bool :=
  match op with
  | GetAllUsers | GetUserById _ | CreateUser _ _ _ _ | UpdateUser _ _ _
  | DeleteUser _ => true
  | _ => false
  end.

(** The two operations that patch a stored task and populate the result
    from the patched record. *)
Definition is_task_patch (op : Operation) : bool :=
  match op with
  | UpdateTask _ _ _ | UpdateTaskStatus _ _ _ => true
  | _ => false
  end.

(** The operations that only read. *)
Definition is_read (op : Operation) : bool :=
  match op with
  | GetAllUsers | GetUserById _ | GetAllTasks | GetTaskById _ => true
  | _ => false
  end.

(** What the HTTP client gets for a failed operation: [errorMiddleware]
    applied to the thrown error. *)
Definition failure_response (r : Result Reply) : option (Z * ErrorReply) :=
  match r with
  | Ok _ => None
  | Throw e => Some (errorMiddleware e)
  end.

(** The record [createTask] builds in fallback mode. *)
Definition newTask (oid : string) (createdAt updatedAt : Z) (taskData : Doc) : Doc :=
  <["updatedAt" := VDate updatedAt]>
    (<["createdAt" := VDate createdAt]>
      (<["user" := prop taskData "user"]>
        (<["status" := js_or (prop taskData "status") (VStr TaskStatus.PENDING)]>
          (<["description" := js_or (prop taskData "description") (VStr EmptyString)]>
            (<["title" := js_or (prop taskData "title") (VStr EmptyString)]>
              {[ "_id" := VOid oid ]}))))).

(** The text of a document's [_id]; it exists when [_id] is neither
    [undefined] nor [null]. *)
Definition has_id (d : Doc) : Prop := nullish (prop d "_id") = false.
Definition id_text (d : Doc) : string := String_ (prop d "_id").

End Startup.

(** *** What a pattern matches, stated without derivatives *)

Inductive matches : regex → string → Prop :=
  | MEps : matches REps EmptyString
  | MClass (p : ascii → bool) c : p c = true → matches (RClass p) (String c EmptyString)
  | MSeq r1 r2 s1 s2 :
      matches r1 s1 → matches r2 s2 → matches (RSeq r1 r2) (s1 +:+ s2)
  | MAltL r1 r2 s : matches r1 s → matches (RAlt r1 r2) s
  | MAltR r1 r2 s : matches r2 s → matches (RAlt r1 r2) s
  | MStarNil r : matches (RStar r) EmptyString
  | MStarApp r s1 s2 :
      matches r s1 → matches (RStar r) s2 → matches (RStar r) (s1 +:+ s2).

(** Every character of [s] is in the class [p]. *)
Fixpoint all_in (p : ascii → bool) (s : string) : bool :=
  match s with
  | EmptyString => true
  | String c s' => p c && all_in p s'
  end.

(** The shape of an address the e-mail pattern describes: a non-empty
    local part, an at sign, a non-empty domain, a dot, and at least two
    letters. *)
Definition email_shape (s : string) : Prop :=
  ∃ loc dom tld,
    s = loc +:+ "@" +:+ dom +:+ "." +:+ tld
    ∧ loc ≠ EmptyString ∧ all_in local_class loc = true
    ∧ dom ≠ EmptyString ∧ all_in domain_class dom = true
    ∧ (2 ≤ String.length tld)%nat ∧ all_in is_letter tld = true.

(** The payloads [validateUserData] lets through, field by field. *)
Definition name_ok (v : JSValue) : Prop :=
  ∃ s, v = VStr s ∧ (2 ≤ String.length (trim s) ≤ 50)%nat.
Definition email_ok (v : JSValue) : Prop :=
  ∃ s, v = VStr s ∧ regex_test emailRegex s = true.
Definition age_ok (v : JSValue) : Prop :=
  v = VUndefined
  ∨ ∃ n, v = VNum n ∧ Number_isInteger n = true ∧ num_lt0 n = false
         ∧ num_gt n 120 = false.
Definition role_ok (v : JSValue) : Prop :=
  v = VUndefined ∨ ∃ r, v = VStr r ∧ r ∈ validRoles.
Definition active_ok (v : JSValue) : Prop :=
  v = VUndefined ∨ ∃ b, v = VBool b.

(* ===================================================================== *)
(** ** Basic facts: properties, array methods                             *)
(* ===================================================================== *)

Lemma prop_insert_eq (o : Doc) k v : prop (<[k := v]> o) k = v.
Proof. unfold prop. by rewrite lookup_insert_eq. Qed.

Lemma prop_insert_ne (o : Doc) k k' v : k ≠ k' → prop (<[k := v]> o) k' = prop o k'.
Proof. intros. unfold prop. by rewrite lookup_insert_ne. Qed.

Lemma prop_empty k : prop ∅ k = VUndefined.
Proof. unfold prop. by rewrite lookup_empty. Qed.

Lemma findIndex_from_lookup {A} (p : A → Result bool) l k i :
  findIndex_from p k l = Ok (Some i) →
  ∃ x, (k ≤ i)%nat ∧ l !! (i - k)%nat = Some x ∧ p x = Ok true.
Proof.
  revert k. induction l as [|x l IH]; intros k; simpl; [done|].
  unfold mbind, Result_bind, result_bind.
  destruct (p x) as [[]|] eqn:Hp; [| |done].
  - intros [= <-]. exists x. rewrite Nat.sub_diag. auto.
  - intros H. destruct (IH _ H) as (y & Hle & Hy & Hpy).
    exists y. split_and!; [lia| |done].
    replace (i - k)%nat with (S (i - S k)) by lia. done.
Qed.

(** A successful [findIndex] points at an element the callback accepts. *)
Lemma Array_findIndex_lookup {A} (p : A → Result bool) l i :
  Array_findIndex p l = Ok (Some i) → ∃ x, l !! i = Some x ∧ p x = Ok true.
Proof.
  intros H. destruct (findIndex_from_lookup _ _ _ _ H) as (x & _ & Hx & Hp).
  rewrite Nat.sub_0_r in Hx. eauto.
Qed.

Lemma findIndex_from_find {A} (p : A → Result bool) l k i x :
  findIndex_from p k l = Ok (Some i) → l !! (i - k)%nat = Some x →
  Array_find p l = Ok (Some x).
Proof.
  revert k. induction l as [|y l IH]; intros k; simpl; [done|].
  unfold mbind, Result_bind, result_bind.
  destruct (p y) as [[]|] eqn:Hp; [| |done].
  - intros [= <-]. rewrite Nat.sub_diag. by intros [= ->].
  - intros H Hx. destruct (findIndex_from_lookup _ _ _ _ H) as (_ & Hle & _).
    replace (i - k)%nat with (S (i - S k)) in Hx by lia. eauto.
Qed.

(** [find] returns the element [findIndex] points at. *)
Lemma Array_find_of_findIndex {A} (p : A → Result bool) l i x :
  Array_findIndex p l = Ok (Some i) → l !! i = Some x → Array_find p l = Ok (Some x).
Proof.
  intros H Hx. apply (findIndex_from_find p l 0%nat i); [done|].
  by rewrite Nat.sub_0_r.
Qed.

Lemma Array_find_app_None {A} (p : A → Result bool) l l' :
  Array_find p l = Ok None → Array_find p (l ++ l') = Array_find p l'.
Proof.
  induction l as [|x l IH]; simpl; [done|].
  unfold mbind, Result_bind, result_bind.
  destruct (p x) as [[]|]; [done| |done]. exact IH.
Qed.

Lemma Array_some_cons {A} (p : A → Result bool) x l :
  Array_some p (x :: l)
  = result_bind (p x) (λ b : bool, if b then Ok true else Array_some p l).
Proof. reflexivity. Qed.

Lemma some_from_false {A} (p : A → nat → bool) k l :
  some_from p k l = false → ∀ j x, l !! j = Some x → p x (k + j)%nat = false.
Proof.
  revert k. induction l as [|y l IH]; intros k; simpl; [done|].
  intros [Hy Hl]%orb_false_iff [|j] x; simpl.
  - intros [= <-]. by rewrite Nat.add_0_r.
  - intros Hx. replace (k + S j)%nat with (S k + j)%nat by lia. eauto.
Qed.

Lemma email_text_unique_insert (users : list Doc) i (u' : Doc) :
  email_text_unique users →
  (∀ j v e, j ≠ i → users !! j = Some v → prop u' "email" = VStr e →
            prop v "email" ≠ VStr e) →
  email_text_unique (<[i := u']> users).
Proof.
  intros Huniq Hother a b u v e Ha Hb Hu Hv.
  apply list_lookup_insert_Some in Ha as [(<- & <- & _)|[Hia Ha]];
    apply list_lookup_insert_Some in Hb as [(<- & <- & _)|[Hib Hb]]; try done.
  - exfalso. by apply (Hother b v e).
  - exfalso. by apply (Hother a u e).
  - eauto.
Qed.

Lemma find_none_forall {A} (p : A → bool) l :
  List.find p l = None → Forall (λ x, p x = false) l.
Proof.
  induction l as [|x l IH]; simpl; [constructor|].
  destruct (p x) eqn:E; [done|]. intros H. constructor; auto.
Qed.

(* ===================================================================== *)
(** ** The validator collects every violation                             *)
(* ===================================================================== *)

Lemma validateUserData_sections (userData : Doc) :
  validateUserData userData =
  let errors :=
    active_section userData (role_section userData (age_section userData
      (email_section userData (name_section userData [])))) in
  if Nat.ltb 0 (List.length errors)
  then Throw (AppError.validation "Error de validación" errors)
  else Ok tt.
Proof. reflexivity. Qed.

Lemma name_section_app userData errors :
  name_section userData errors = (errors ++ nameViolations (prop userData "name"))%list.
Proof.
  unfold name_section, nameViolations, push.
  destruct (truthy (prop userData "name")); simpl; [|done].
  destruct (prop userData "name"); try done.
  destruct (Nat.ltb (String.length (trim s)) 2), (Nat.ltb 50 (String.length (trim s)));
    simpl; rewrite <- ?app_assoc, ?app_nil_r; done.
Qed.

Lemma email_section_app userData errors :
  email_section userData errors = (errors ++ emailViolations (prop userData "email"))%list.
Proof.
  unfold email_section, emailViolations, push.
  destruct (truthy (prop userData "email")); simpl; [|done].
  destruct (prop userData "email"); try done.
  destruct (regex_test emailRegex s); simpl; rewrite ?app_nil_r; done.
Qed.

Lemma age_section_app userData errors :
  age_section userData errors = (errors ++ ageViolations (prop userData "age"))%list.
Proof.
  unfold age_section, ageViolations, push.
  destruct (prop userData "age") as [| |b|n|s|h|d]; simpl; rewrite ?app_nil_r; try done.
  destruct (Number_isInteger n), (num_lt0 n), (num_gt n 120);
    simpl; rewrite <- ?app_assoc, ?app_nil_r; done.
Qed.

Lemma role_section_app userData errors :
  role_section userData errors = (errors ++ roleViolations (prop userData "role"))%list.
Proof.
  unfold role_section, roleViolations, push.
  destruct (prop userData "role") as [| |b|n|s|h|d]; simpl; rewrite ?app_nil_r; try done.
  destruct (_ || _); simpl; rewrite ?app_nil_r; done.
Qed.

Lemma active_section_app userData errors :
  active_section userData errors = (errors ++ activeViolations (prop userData "active"))%list.
Proof.
  unfold active_section, activeViolations, push.
  destruct (prop userData "active") as [| |b|n|s|h|d]; simpl; rewrite ?app_nil_r; done.
Qed.

(** Rewrite [validateUserData userData] into the test on the concatenation
    of the five rules' violations. *)
Ltac by_sections :=
  rewrite validateUserData_sections; cbv zeta;
  rewrite active_section_app, role_section_app, age_section_app,
    email_section_app, name_section_app;
  rewrite app_nil_l, <- !app_assoc.

(** A payload that passes validation carries its e-mail as a non-empty
    string. *)
Lemma validateUserData_email (userData : Doc) :
  validateUserData userData = Ok tt →
  ∃ e, prop userData "email" = VStr e ∧ truthy (VStr e) = true.
Proof.
  by_sections.
  destruct (nameViolations _) eqn:Hn; [|done]. simpl.
  unfold emailViolations.
  destruct (truthy (prop userData "email")) eqn:Ht; simpl; [|done].
  destruct (prop userData "email"); try done. eauto.
Qed.

(** C8.  For every payload the validator evaluates the five rules (name,
    email, age, role, active) independently of one another and of what the
    earlier rules found: it returns normally exactly when no rule reports a
    violation, and otherwise throws one Validation error whose details are
    the violation messages of all the rules, in rule order. *)
Theorem validateUserData_collects_all (userData : Doc) :
  validateUserData userData =
    match violations userData with
    | [] => Ok tt
    | errors => Throw (AppError.validation "Error de validación" errors)
    end.
Proof.
  by_sections. fold (violations userData).
  destruct (violations userData) as [|m errors].
  - reflexivity.
  - simpl. reflexivity.
Qed.

(** A payload that breaks every rule gets every message, not the first. *)
Example validateUserData_six_violations :
  validateUserData
    {[ "name" := VStr "A"; "email" := VStr "ann@example";
       "age" := VNum (NFinite (Qmake (-3) 2)); "role" := VStr "root";
       "active" := VNum NNaN ]}
  = Throw (AppError.validation "Error de validación"
      ["El nombre debe tener al menos 2 caracteres";
       "El formato del email no es válido";
       "La edad debe ser un número entero";
       "La edad no puede ser negativa";
       "El rol 'root' no es válido. Roles válidos: user, admin, editor";
       "El campo active debe ser un valor booleano"]).
Proof. vm_compute. reflexivity. Qed.

(* ===================================================================== *)
(** ** Error normalization                                                *)
(* ===================================================================== *)

(** C9.  [handleError] is a total function: every error object gets one
    envelope; its type is one of the five envelope types and its status is
    the one of that type (400, 404, 409 or 500); the envelope is a
    ServerError exactly when the error matches no known category, and then
    it carries status 500 and the error's own message as details. *)
Theorem handleError_total (error : JSError) :
  let r := handleError error in
  api_type r ∈ [VALIDATION; NOT_FOUND; DUPLICATE; BAD_REQUEST; SERVER]
  ∧ api_status r = status_of (api_type r)
  ∧ api_status r ∈ [400; 404; 409; 500]
  ∧ (api_type r = SERVER ↔ known_category error = false)
  ∧ (known_category error = false →
     r = mkApiError SERVER "Error interno del servidor" (DText (e_message error)) 500).
Proof.
  unfold handleError, known_category, ErrorType_value.
  destruct (instanceof error MongooseValidationError);
    [simpl; split_and!; [set_solver|done|set_solver|done|done]|].
  destruct (strict_eq (e_code error) _);
    [simpl; split_and!; [set_solver|done|set_solver|done|done]|].
  destruct (instanceof error MongooseCastError);
    [simpl; split_and!; [set_solver|done|set_solver|done|done]|].
  destruct (String.eqb (e_name error) "NotFoundError");
    [simpl; split_and!; [set_solver|done|set_solver|done|done]|].
  destruct (String.eqb (e_name error) "BadRequestError");
    [simpl; split_and!; [set_solver|done|set_solver|done|done]|].
  destruct (String.eqb (e_name error) "ValidationError");
    [simpl; split_and!; [set_solver|done|set_solver|done|done]|].
  simpl; split_and!; [set_solver|done|set_solver|done|done].
Qed.

Lemma handleError_total_witness :
  known_category (new_Error "boom") = false
  ∧ handleError (new_Error "boom")
    = mkApiError SERVER "Error interno del servidor" (DText "boom") 500.
Proof.
  split; [reflexivity|].
  exact (proj2 (proj2 (proj2 (proj2 (handleError_total (new_Error "boom")))))
           eq_refl).
Defined.

(** The errors the controllers throw land in their categories. *)
Example handleError_controller_errors :
  api_type (handleError (AppError.notFound "x")) = NOT_FOUND
  ∧ api_type (handleError (AppError.badRequest "x")) = BAD_REQUEST
  ∧ api_type (handleError (AppError.validation "x" ["y"])) = VALIDATION
  ∧ handleError (duplicate_email (VStr "ann@example.com"))
    = mkApiError DUPLICATE "Registro duplicado"
        (DObject {[ "email" := VStr "ann@example.com" ]}) 409.
Proof. split_and!; reflexivity. Qed.

(* ===================================================================== *)
(** ** The controllers                                                    *)
(* ===================================================================== *)

Section Properties.
Context `{P : Platform}.

(** Unfold the plumbing of [M]. *)
Ltac run :=
  unfold mbind, mret, M_bind, M_ret, lift, throw, query, command,
    isInMemoryMode, getInMemoryUsers, getInMemoryTasks,
    setInMemoryUsers, setInMemoryTasks; simpl.

(** In fallback mode the probe answers [false] when every stored user has an
    [_id] and none prints as the given value does. *)
Lemma userExists_fallback_false (st : Store) (user : JSValue) :
  inMemoryMode st = true →
  Forall (λ u, nullish (prop u "_id") = false
               ∧ optional_toString user ≠ VStr (String_ (prop u "_id")))
         (inMemoryUsers st) →
  userExists st user = Ok false.
Proof.
  unfold userExists. intros -> H.
  induction H as [|u l [Hn Hne] _ IH]; [done|].
  rewrite Array_some_cons.
  assert (id_is_optional user u = Ok false) as ->; [|exact IH].
  unfold id_is_optional, toString. rewrite Hn. simpl.
  destruct (optional_toString user) as [| |b|n|s|h|d]; simpl; try done.
  destruct (String.eqb _ s) eqn:E; [|done].
  apply String.eqb_eq in E. by subst s.
Qed.

(** *** Tasks *)

(** C3.  In either store mode, when the existence probe finds no user for
    the payload's [user], [createTask] throws the BadRequest error whose
    message names that user id, and the store (both collections and the
    database) is left as it was. *)
Theorem createTask_missing_user (st : Store) oid createdAt updatedAt (taskData : Doc) :
  userExists st (prop taskData "user") = Ok false →
  createTask oid createdAt updatedAt taskData st
  = (Throw (AppError.badRequest
              ("Usuario con ID " +:+ String_ (prop taskData "user") +:+ " no existe")),
     st).
Proof.
  unfold userExists, createTask. intros H. run.
  destruct (inMemoryMode st); rewrite H; reflexivity.
Qed.


(** The fallback branch of [updateTaskStatus], once the task is found and
    the populate lookup has answered. *)
Lemma updateTaskStatus_fallback (st : Store) now id status i (task : Doc) user :
  status ∈ TaskStatus.values →
  inMemoryMode st = true →
  taskIndex st id = Ok (Some i) →
  inMemoryTasks st !! i = Some task →
  Array_find (id_is_toString (prop task "user")) (inMemoryUsers st) = Ok user →
  let updatedTask : Doc :=
    <["updatedAt" := VDate now]> (<["status" := VStr status]> task) in
  updateTaskStatus now id status st
  = (Ok (ReplyData (DataTask (with_user updatedTask user))),
     mkStore true (inMemoryUsers st) (<[i := updatedTask]> (inMemoryTasks st))
             (database st)).
Proof.
  intros Hin Hmode Hidx Hlook Hfind updatedTask.
  assert (existsb (String.eqb status) TaskStatus.values = true) as E.
  { apply existsb_exists. exists status. split; [by apply list_elem_of_In|].
    apply String.eqb_refl. }
  unfold updateTaskStatus, taskIndex in *. rewrite E. run.
  rewrite Hmode, Hidx, Hlook. simpl. fold updatedTask.
  replace (prop updatedTask "user") with (prop task "user").
  2:{ unfold updatedTask. by rewrite !prop_insert_ne. }
  rewrite Hfind. simpl. by rewrite Hmode.
Qed.




(** C5.  In fallback mode, for a stored task whose user id matches no
    stored user, [getTaskById] returns the task with the raw user id in
    [user], but [updateTaskStatus] returns it with [user] undefined: its
    populate step has no [|| task.user]. *)
Theorem updateTaskStatus_unresolved_user (st : Store) now id status i (task : Doc) :
  inMemoryMode st = true →
  status ∈ TaskStatus.values →
  taskIndex st id = Ok (Some i) →
  inMemoryTasks st !! i = Some task →
  Array_find (id_is_toString (prop task "user")) (inMemoryUsers st) = Ok None →
  (∃ t, getTaskById id st = (Ok (ReplyData (DataTask t)), st)
        ∧ t !! "user" = Some (PVal (prop task "user")))
  ∧ (∃ t st', updateTaskStatus now id status st = (Ok (ReplyData (DataTask t)), st')
              ∧ t !! "user" = Some (PVal VUndefined)).
Proof.
  intros Hmode Hin Hidx Hlook Huser. split.
  - eexists. split.
    + unfold getTaskById. run.
      rewrite Hmode, (Array_find_of_findIndex _ _ _ _ Hidx Hlook). simpl.
      rewrite Huser. reflexivity.
    + unfold with_user_or_id. by rewrite lookup_insert_eq.
  - rewrite (updateTaskStatus_fallback st now id status i task None) by done.
    eexists _, _. split; [reflexivity|].
    unfold with_user. by rewrite lookup_insert_eq.
Qed.

(** C10, as amended.  [moveTaskToUser] probes the user before it looks the
    task up, in both modes: when the probe finds no user it throws
    BadRequest whatever the task id.  [updateTask] looks the task up first
    in fallback mode only, where a task id that does not resolve gives
    NotFound whatever the payload's user; in durable mode it probes the
    payload's user first too, and throws BadRequest when the probe finds
    none. *)
Theorem reassign_probe_order (st : Store) now id userId (taskData : Doc) :
  (userIdExists st userId = Ok false →
   moveTaskToUser now id userId st
   = (Throw (AppError.badRequest ("Usuario con ID " +:+ userId +:+ " no existe")), st))
  ∧ (inMemoryMode st = true → taskIndex st id = Ok None →
     updateTask now id taskData st
     = (Throw (AppError.notFound ("Tarea con ID " +:+ id +:+ " no encontrada")), st))
  ∧ (inMemoryMode st = false → truthy (prop taskData "user") = true →
     userExists st (prop taskData "user") = Ok false →
     updateTask now id taskData st
     = (Throw (AppError.badRequest
                 ("Usuario con ID " +:+ String_ (prop taskData "user") +:+ " no existe")),
        st)).
Proof.
  split_and!.
  - unfold userIdExists, moveTaskToUser. intros H. run.
    destruct (inMemoryMode st); rewrite H; reflexivity.
  - unfold taskIndex, updateTask. intros Hmode H. run. by rewrite Hmode, H.
  - unfold userExists, updateTask. intros Hmode Ht H. run.
    rewrite Hmode in *. rewrite Ht. simpl. by rewrite H.
Qed.

(** *** Users *)




(** C4, as amended.  In fallback mode, for a user id that resolves,
    [updateUser] with an empty payload succeeds and returns the stored user
    with [updatedAt] set to the time of the call and every other property
    unchanged; the stored record is replaced by the returned one. *)
Theorem updateUser_empty_refreshes_updatedAt (st : Store) now id i (user : Doc) :
  inMemoryMode st = true →
  userIndex st id = Ok (Some i) →
  inMemoryUsers st !! i = Some user →
  let updatedUser : Doc := <["updatedAt" := VDate now]> user in
  updateUser now id ∅ st
  = (Ok (ReplyData (DataUser updatedUser)),
     mkStore true (<[i := updatedUser]> (inMemoryUsers st)) (inMemoryTasks st)
             (database st))
  ∧ updatedUser !! "updatedAt" = Some (VDate now)
  ∧ (∀ k, k ≠ "updatedAt" → updatedUser !! k = user !! k).
Proof.
  intros Hmode Hidx Hlook updatedUser. split_and!.
  - unfold updateUser, userIndex in *. run. rewrite map_size_empty. simpl.
    rewrite Hmode, Hidx. simpl. rewrite prop_empty. simpl. rewrite Hlook. simpl.
    rewrite (left_id_L ∅ (∪)). fold updatedUser. by rewrite Hmode.
  - unfold updatedUser. by rewrite lookup_insert_eq.
  - intros k Hk. unfold updatedUser. by rewrite lookup_insert_ne.
Qed.

(** C2.  In either mode, [updateUser] runs the whole validator on a
    non-empty payload: a payload without [name] is rejected with a
    Validation error whose first message is that the name is required, and
    nothing is written. *)
Theorem updateUser_partial_requires_name (st : Store) now id (userData : Doc) :
  userData ≠ ∅ →
  userData !! "name" = None →
  ∃ errors,
    updateUser now id userData st
    = (Throw (AppError.validation "Error de validación"
                ("El nombre es obligatorio" :: errors)), st).
Proof.
  intros Hne Hname.
  assert (Nat.ltb 0 (size userData) = true) as Hsize.
  { apply Nat.ltb_lt. apply map_size_non_empty_iff in Hne. lia. }
  exists (emailViolations (prop userData "email")
          ++ ageViolations (prop userData "age")
          ++ roleViolations (prop userData "role")
          ++ activeViolations (prop userData "active"))%list.
  unfold updateUser. run. rewrite Hsize.
  by_sections.
  replace (prop userData "name") with VUndefined by (unfold prop; by rewrite Hname).
  reflexivity.
Qed.

(** An empty payload skips the validator: an unknown id is then reported
    as NotFound, not as a Validation error. *)
Lemma updateUser_empty_skips_validation (st : Store) now id :
  inMemoryMode st = true → userIndex st id = Ok None →
  updateUser now id ∅ st
  = (Throw (AppError.notFound ("Usuario con ID " +:+ id +:+ " no encontrado")), st).
Proof.
  intros Hmode Hidx. unfold updateUser, userIndex in *. run.
  rewrite map_size_empty. simpl. by rewrite Hmode, Hidx.
Qed.

(** [createUser] keeps the e-mail texts of the fallback store pairwise
    different. *)
Lemma createUser_email_text_unique
    (st st' : Store) oid createdAt updatedAt (userData : Doc) r :
  inMemoryMode st = true →
  email_text_unique (inMemoryUsers st) →
  createUser oid createdAt updatedAt userData st = (Ok r, st') →
  email_text_unique (inMemoryUsers st').
Proof.
  intros Hmode Huniq. unfold createUser. run.
  destruct (validateUserData userData) as [[]|] eqn:Hvalid; simpl; [|done].
  rewrite Hmode.
  destruct (List.find _ (inMemoryUsers st)) eqn:Hfind; simpl; [done|].
  intros [= _ <-]. simpl.
  destruct (validateUserData_email _ Hvalid) as (e0 & He0 & _).
  apply find_none_forall in Hfind. rewrite Forall_forall in Hfind.
  set (user := <["updatedAt":=_]> _).
  assert (prop user "email" = VStr e0) as Hnew.
  { unfold user. rewrite !prop_insert_ne by done. unfold prop in *.
    destruct (userData !! "email") eqn:E; simpl in He0; [|done].
    by rewrite (lookup_union_Some_l _ _ _ _ E). }
  assert (∀ u, u ∈ inMemoryUsers st → prop u "email" ≠ VStr e0) as Hold.
  { intros u Hu Heq. specialize (Hfind u Hu).
    simpl in Hfind. rewrite He0, Heq in Hfind. simpl in Hfind.
    by rewrite String.eqb_refl in Hfind. }
  intros i j u v e Hi Hj Hu Hv.
  apply lookup_app_Some in Hi as [Hi|[Hil Hi]];
    apply lookup_app_Some in Hj as [Hj|[Hjl Hj]].
  - eauto.
  - apply list_lookup_singleton_Some in Hj as [_ <-].
    exfalso. apply (Hold u); [by eapply list_elem_of_lookup_2|]. congruence.
  - apply list_lookup_singleton_Some in Hi as [_ <-].
    exfalso. apply (Hold v); [by eapply list_elem_of_lookup_2|]. congruence.
  - apply list_lookup_singleton_Some in Hi as [Hi _].
    apply list_lookup_singleton_Some in Hj as [Hj _]. lia.
Qed.

(** So does [updateUser]. *)
Lemma updateUser_email_text_unique (st st' : Store) now id (userData : Doc) r :
  inMemoryMode st = true →
  email_text_unique (inMemoryUsers st) →
  updateUser now id userData st = (Ok r, st') →
  email_text_unique (inMemoryUsers st').
Proof.
  intros Hmode Huniq. unfold updateUser. run.
  destruct (Nat.ltb 0 (size userData)) eqn:Hsize.
  - destruct (validateUserData userData) as [[]|] eqn:Hvalid; simpl; [|done].
    rewrite Hmode.
    destruct (Array_findIndex _ _) as [[i|]|] eqn:Hidx; simpl; [|done|done].
    destruct (validateUserData_email _ Hvalid) as (e0 & He0 & Ht).
    rewrite He0, Ht.
    destruct (some_from _ _ _) eqn:Hsome; simpl; [done|].
    intros [= _ <-]. simpl.
    apply email_text_unique_insert; [done|].
    intros j v e Hj Hv He Hve.
    rewrite prop_insert_ne in He by done.
    assert (prop (userData ∪ default ∅ (inMemoryUsers st !! i)) "email" = VStr e0) as Hnew.
    { unfold prop in *. destruct (userData !! "email") eqn:E; simpl in He0; [|done].
      by rewrite (lookup_union_Some_l _ _ _ _ E). }
    rewrite Hnew in He. injection He as <-.
    pose proof (some_from_false _ _ _ Hsome j v Hv) as Hp. simpl in Hp.
    rewrite Hve in Hp. simpl in Hp. rewrite String.eqb_refl in Hp. simpl in Hp.
    apply negb_false_iff, Nat.eqb_eq in Hp. done.
  - simpl. rewrite Hmode.
    destruct (Array_findIndex _ _) as [[i|]|] eqn:Hidx; simpl; [|done|done].
    assert (userData = ∅) as ->.
    { apply map_size_empty_iff. apply Nat.ltb_ge in Hsize. lia. }
    rewrite prop_empty. simpl. intros [= _ <-]. simpl.
    destruct (Array_findIndex_lookup _ _ _ Hidx) as (u & Hu & _).
    rewrite Hu. simpl. rewrite (left_id_L ∅ (∪)).
    apply email_text_unique_insert; [done|].
    intros j v e Hj Hv He Hve. rewrite prop_insert_ne in He by done.
    apply Hj. by apply (Huniq j i v u e).
Qed.

(** C1.  Starting from the empty fallback store, [createUser] accepts the
    payload with e-mail ann@example.com and then the payload with e-mail
    ANN@example.com: both calls succeed, no DuplicateError is raised, and
    the two stored users share their case-normalized e-mail, so the
    uniqueness invariant that held before no longer holds. *)
Theorem createUser_case_variants_both_succeed (d : DB) :
  let st0 := mkStore true [] [] d in
  let u1 := newUser U1 1 1 ann in
  let u2 := newUser U2 2 2 ANN in
  createUser U1 1 1 ann st0 = (Ok (ReplyData (DataUser u1)), mkStore true [u1] [] d)
  ∧ createUser U2 2 2 ANN (mkStore true [u1] [] d)
    = (Ok (ReplyData (DataUser u2)), mkStore true [u1; u2] [] d)
  ∧ normalized_email u1 = Some "ann@example.com"
  ∧ normalized_email u2 = Some "ann@example.com"
  ∧ email_unique (inMemoryUsers st0)
  ∧ ¬ email_unique [u1; u2].
Proof.
  split_and!; try (vm_compute; reflexivity).
  - intros i j u v e Hi. done.
  - intros H. specialize (H 0%nat 1%nat (newUser U1 1 1 ann) (newUser U2 2 2 ANN)
                            "ann@example.com").
    assert (0 = 1)%nat; [|done].
    apply H; vm_compute; reflexivity.
Qed.

End Properties.

(* ===================================================================== *)
(** ** The e-mail pattern                                                 *)
(* ===================================================================== *)

Lemma append_cons c (s t : string) : String c s +:+ t = String c (s +:+ t).
Proof. reflexivity. Qed.

Lemma append_nil_l (t : string) : EmptyString +:+ t = t.
Proof. reflexivity. Qed.

Lemma append_empty_inv (s1 s2 : string) :
  s1 +:+ s2 = EmptyString → s1 = EmptyString ∧ s2 = EmptyString.
Proof. destruct s1; [by rewrite append_nil_l|by rewrite append_cons]. Qed.

Lemma nullable_matches r : nullable r = true ↔ matches r EmptyString.
Proof.
  split.
  - induction r; simpl; intros H; try discriminate.
    + constructor.
    + apply andb_true_iff in H as [H1 H2].
      change EmptyString with (EmptyString +:+ EmptyString). constructor; auto.
    + apply orb_true_iff in H as [H|H]; [apply MAltL|apply MAltR]; auto.
    + constructor.
  - intros H. remember EmptyString as s eqn:Hs.
    induction H; simpl; try discriminate; try done.
    + apply append_empty_inv in Hs as [-> ->]. rewrite IHmatches1, IHmatches2; done.
    + rewrite IHmatches; done.
    + rewrite IHmatches. apply orb_true_r. done.
Qed.

Lemma deriv_matches_1 c r s : matches (deriv c r) s → matches r (String c s).
Proof.
  revert s. induction r; simpl; intros s H.
  - inversion H.
  - inversion H.
  - destruct (p c) eqn:Hp; inversion H; subst. by constructor.
  - destruct (nullable r1) eqn:Hn.
    + inversion H as [| | | ? ? ? H1 | ? ? ? H2 | |]; subst.
      * inversion H1; subst.
        change (String c (s1 +:+ s2)) with (String c s1 +:+ s2). constructor; auto.
      * change (String c s) with (EmptyString +:+ String c s).
        constructor; [by apply nullable_matches | auto].
    + inversion H; subst.
      change (String c (s1 +:+ s2)) with (String c s1 +:+ s2). constructor; auto.
  - inversion H; subst; [apply MAltL|apply MAltR]; auto.
  - inversion H; subst.
    change (String c (s1 +:+ s2)) with (String c s1 +:+ s2). constructor; auto.
Qed.

Lemma deriv_matches_2 c r s : matches r (String c s) → matches (deriv c r) s.
Proof.
  intros H. remember (String c s) as cs eqn:Hcs. revert s Hcs.
  induction H; intros s' Hcs; simpl; try discriminate.
  - injection Hcs as -> <-. rewrite H. constructor.
  - destruct s1 as [|c1 s1']; rewrite ?append_cons, ?append_nil_l in Hcs.
    + subst s2. apply nullable_matches in H. rewrite H. apply MAltR. auto.
    + injection Hcs as -> <-.
      destruct (nullable r1); [apply MAltL|]; constructor; auto.
  - apply MAltL. auto.
  - apply MAltR. auto.
  - destruct s1 as [|c1 s1']; rewrite ?append_cons, ?append_nil_l in Hcs.
    + subst s2. apply (IHmatches2 s' eq_refl).
    + injection Hcs as -> <-. constructor; auto.
Qed.

(** The derivative matcher decides [matches]. *)
Lemma regex_test_matches r s : regex_test r s = true ↔ matches r s.
Proof.
  revert r. induction s as [|c s IH]; intros r; simpl.
  - apply nullable_matches.
  - rewrite IH. split; [apply deriv_matches_1|apply deriv_matches_2].
Qed.

Lemma matches_class p s :
  matches (RClass p) s ↔ ∃ c, s = String c EmptyString ∧ p c = true.
Proof.
  split.
  - intros H. inversion H; subst. eauto.
  - intros (c & -> & Hc). by constructor.
Qed.

Lemma matches_seq r1 r2 s :
  matches (RSeq r1 r2) s ↔ ∃ s1 s2, s = s1 +:+ s2 ∧ matches r1 s1 ∧ matches r2 s2.
Proof.
  split.
  - intros H. inversion H; subst. eauto.
  - intros (s1 & s2 & -> & H1 & H2). by constructor.
Qed.

Lemma matches_star_class p s :
  matches (RStar (RClass p)) s ↔ all_in p s = true.
Proof.
  split.
  - intros H. remember (RStar (RClass p)) as r eqn:Hr.
    induction H; try discriminate; [done|].
    injection Hr as ->. apply matches_class in H as (c & -> & Hc).
    rewrite append_cons, append_nil_l. simpl. rewrite Hc. simpl. auto.
  - induction s as [|c s IH]; simpl; intros H; [constructor|].
    apply andb_true_iff in H as [Hc Hs].
    change (String c s) with (String c EmptyString +:+ s).
    constructor; [by constructor|auto].
Qed.

Lemma matches_plus_class p s :
  matches (RPlus (RClass p)) s ↔ s ≠ EmptyString ∧ all_in p s = true.
Proof.
  unfold RPlus. rewrite matches_seq. split.
  - intros (s1 & s2 & -> & H1 & H2).
    apply matches_class in H1 as (c & -> & Hc). apply matches_star_class in H2.
    rewrite append_cons, append_nil_l. simpl. rewrite Hc, H2. done.
  - intros [Hne H]. destruct s as [|c s]; [done|]. simpl in H.
    apply andb_true_iff in H as [Hc Hs].
    exists (String c EmptyString), s. split_and!; [done|by constructor|].
    by apply matches_star_class.
Qed.

Lemma matches_atleast2_class p s :
  matches (RAtLeast2 (RClass p)) s ↔ (2 ≤ String.length s)%nat ∧ all_in p s = true.
Proof.
  unfold RAtLeast2. rewrite matches_seq. split.
  - intros (s1 & s2 & -> & H1 & H2).
    apply matches_class in H1 as (c & -> & Hc).
    apply (matches_plus_class p) in H2 as [Hne H2].
    destruct s2; [done|]. rewrite append_cons, append_nil_l. simpl in *.
    rewrite Hc, H2. split; [lia|done].
  - intros [Hlen H]. destruct s as [|c [|c' s]]; simpl in Hlen; try lia.
    simpl in H. apply andb_true_iff in H as [Hc H].
    exists (String c EmptyString), (String c' s). split_and!; [done|by constructor|].
    apply (matches_plus_class p). split; [done|]. exact H.
Qed.

Lemma matches_char c s : matches (RChar c) s ↔ s = String c EmptyString.
Proof.
  unfold RChar. rewrite matches_class. split.
  - intros (c' & -> & Hc). apply Ascii.eqb_eq in Hc. by subst.
  - intros ->. exists c. split; [done|]. apply Ascii.eqb_refl.
Qed.

(** X1.  The e-mail test of the validator accepts exactly the strings made of
    a non-empty local part over [a-zA-Z0-9._%+-], an at sign, a non-empty
    domain over [a-zA-Z0-9.-], a dot, and at least two letters. *)
Theorem emailRegex_accepts_iff (s : string) :
  regex_test emailRegex s = true ↔ email_shape s.
Proof.
  rewrite regex_test_matches. unfold emailRegex, email_shape. split.
  - intros H.
    apply matches_seq in H as (loc & s1 & -> & Hloc & H).
    apply matches_seq in H as (at_ & s2 & -> & Hat & H).
    apply matches_seq in H as (dom & s3 & -> & Hdom & H).
    apply matches_seq in H as (dot & tld & -> & Hdot & Htld).
    apply matches_char in Hat as ->. apply matches_char in Hdot as ->.
    apply matches_plus_class in Hloc as [? ?].
    apply matches_plus_class in Hdom as [? ?].
    apply matches_atleast2_class in Htld as [? ?].
    exists loc, dom, tld. split_and!; done.
  - intros (loc & dom & tld & -> & ? & ? & ? & ? & ? & ?).
    apply matches_seq. exists loc, ("@" +:+ dom +:+ "." +:+ tld).
    split_and!; [done|by apply matches_plus_class|].
    apply matches_seq. exists "@", (dom +:+ "." +:+ tld).
    split_and!; [done|by apply matches_char|].
    apply matches_seq. exists dom, ("." +:+ tld).
    split_and!; [done|by apply matches_plus_class|].
    apply matches_seq. exists ".", tld.
    split_and!; [done|by apply matches_char|by apply matches_atleast2_class].
Qed.

(* ===================================================================== *)
(** ** The payloads the validator accepts                                 *)
(* ===================================================================== *)

Lemma nameViolations_nil v : nameViolations v = [] ↔ name_ok v.
Proof.
  unfold nameViolations, name_ok. split.
  - destruct (truthy v); simpl; [|done].
    destruct v as [| |b|n|s|h|d]; try done.
    destruct (Nat.ltb_spec (String.length (trim s)) 2); [done|].
    destruct (Nat.ltb_spec 50 (String.length (trim s))); [done|].
    intros _. exists s. split; [done|lia].
  - intros (s & -> & Hlen).
    assert (truthy (VStr s) = true) as ->.
    { destruct s; [simpl in Hlen; lia|done]. }
    simpl.
    destruct (Nat.ltb_spec (String.length (trim s)) 2); [lia|].
    destruct (Nat.ltb_spec 50 (String.length (trim s))); [lia|done].
Qed.

Lemma emailViolations_nil v : emailViolations v = [] ↔ email_ok v.
Proof.
  unfold emailViolations, email_ok. split.
  - destruct (truthy v); simpl; [|done].
    destruct v as [| |b|n|s|h|d]; try done.
    destruct (regex_test emailRegex s) eqn:E; [eauto|done].
  - intros (s & -> & Hre).
    assert (truthy (VStr s) = true) as ->.
    { destruct s; [vm_compute in Hre; discriminate|done]. }
    simpl. by rewrite Hre.
Qed.

Lemma ageViolations_nil v : ageViolations v = [] ↔ age_ok v.
Proof.
  unfold ageViolations, age_ok. split.
  - destruct v as [| |b|n|s|h|d]; try done; [by left|].
    destruct (Number_isInteger n) eqn:?, (num_lt0 n) eqn:?, (num_gt n 120) eqn:?;
      simpl; try done.
    intros _. right. eauto.
  - intros [->|(n & -> & -> & -> & ->)]; done.
Qed.

Lemma roleViolations_nil v : roleViolations v = [] ↔ role_ok v.
Proof.
  unfold roleViolations, role_ok. split.
  - destruct v as [| |b|n|s|h|d]; try done; [by left|].
    destruct (existsb (String.eqb s) validRoles) eqn:E; [|done].
    intros _. right. exists s. split; [done|].
    apply existsb_exists in E as (r & Hin & Heq). apply String.eqb_eq in Heq as ->.
    by apply list_elem_of_In.
  - intros [->|(r & -> & Hin)]; [done|].
    assert (existsb (String.eqb r) validRoles = true) as ->; [|done].
    apply existsb_exists. exists r. split; [by apply list_elem_of_In|apply String.eqb_refl].
Qed.

Lemma activeViolations_nil v : activeViolations v = [] ↔ active_ok v.
Proof.
  unfold activeViolations, active_ok. split.
  - destruct v as [| |b|n|s|h|d]; try done; [by left|]. intros _. right. eauto.
  - intros [->|(b & ->)]; done.
Qed.

Lemma validateUserData_ok_violations (userData : Doc) :
  validateUserData userData = Ok tt ↔ violations userData = [].
Proof.
  by_sections. fold (violations userData). by destruct (violations userData).
Qed.

Lemma violations_nil_iff (userData : Doc) :
  violations userData = [] ↔
  name_ok (prop userData "name") ∧ email_ok (prop userData "email")
  ∧ age_ok (prop userData "age") ∧ role_ok (prop userData "role")
  ∧ active_ok (prop userData "active").
Proof.
  unfold violations.
  rewrite <- nameViolations_nil, <- emailViolations_nil, <- ageViolations_nil,
    <- roleViolations_nil, <- activeViolations_nil.
  rewrite !app_nil. tauto.
Qed.

(** X2.  [validateUserData] returns normally exactly for the payloads whose
    name is a string of 2 to 50 characters once trimmed, whose email is a
    string the pattern accepts, whose age is absent or an integer from 0 to
    120, whose role is absent or one of user, admin, editor, and whose
    active is absent or a boolean ("absent" includes an explicit
    [undefined]). *)
Theorem validateUserData_accepts_iff (userData : Doc) :
  validateUserData userData = Ok tt ↔
  name_ok (prop userData "name") ∧ email_ok (prop userData "email")
  ∧ age_ok (prop userData "age") ∧ role_ok (prop userData "role")
  ∧ active_ok (prop userData "active").
Proof.
  rewrite validateUserData_ok_violations. apply violations_nil_iff.
Qed.

(** X3.  On a payload that passes validation, setting [age] to the integer
    [z] keeps it valid exactly when [z] is from 0 to 120: both bounds are
    accepted, -1 and 121 are not. *)
Theorem validateUserData_age_bounds (userData : Doc) (z : Z) :
  validateUserData userData = Ok tt →
  (validateUserData (<["age" := VNum (NFinite (Qmake z 1))]> userData) = Ok tt
   ↔ (0 ≤ z ≤ 120)%Z).
Proof.
  rewrite !validateUserData_ok_violations, !violations_nil_iff.
  rewrite prop_insert_eq, !prop_insert_ne by done.
  intros (Hn & He & _ & Hr & Ha). split.
  - intros (_ & _ & [?|(n & [= <-] & _ & Hlt & Hgt)] & _); [done|].
    simpl in *. apply Z.ltb_ge in Hlt, Hgt. lia.
  - intros Hz. split_and!; try done. right. eexists. split_and!; [done| | |]; simpl.
    + by rewrite Z.mod_1_r.
    + apply Z.ltb_ge. lia.
    + apply Z.ltb_ge. lia.
Qed.

Lemma trim_blank s : all_in is_space s = true → trim s = EmptyString.
Proof.
  intros H. unfold trim. assert (trimStart s = EmptyString) as ->; [|done].
  induction s as [|c s IH]; simpl in *; [done|].
  apply andb_true_iff in H as [-> ?]. auto.
Qed.

(** X4.  A name made of white space only is rejected however long it is:
    the length rule counts the trimmed name. *)
Theorem validateUserData_blank_name (userData : Doc) (s : string) :
  prop userData "name" = VStr s → all_in is_space s = true →
  validateUserData userData ≠ Ok tt.
Proof.
  intros Hname Hblank. rewrite validateUserData_ok_violations, violations_nil_iff.
  intros ((s' & Hs & Hlen) & _). rewrite Hname in Hs. injection Hs as <-.
  rewrite (trim_blank _ Hblank) in Hlen. simpl in Hlen. lia.
Qed.

(* ===================================================================== *)
(** ** The operations as a family                                         *)
(* ===================================================================== *)

Lemma Array_find_cons {A} (p : A → Result bool) x l :
  Array_find p (x :: l)
  = result_bind (p x) (λ b : bool, if b then Ok (Some x) else Array_find p l).
Proof. reflexivity. Qed.

Lemma Array_some_find {A} (p : A → Result bool) l :
  Array_some p l = Ok true →
  ∃ x, Array_find p l = Ok (Some x) ∧ x ∈ l ∧ p x = Ok true.
Proof.
  induction l as [|y l IH]; [done|].
  rewrite Array_some_cons, Array_find_cons.
  destruct (p y) as [[]|] eqn:Hp; simpl; [| |done].
  - intros _. exists y. split_and!; [done|apply list_elem_of_here|done].
  - intros H. destruct (IH H) as (x & Hx & Hin & Hpx).
    exists x. split_and!; [done|by apply list_elem_of_further|done].
Qed.

Lemma Array_find_ext {A} (p q : A → Result bool) l :
  (∀ x, x ∈ l → p x = q x) → Array_find p l = Array_find q l.
Proof.
  induction l as [|y l IH]; [done|]. intros H.
  rewrite !Array_find_cons, (H y) by apply list_elem_of_here.
  destruct (q y) as [[]|]; simpl; [done| |done].
  apply IH. intros x Hx. apply H. by apply list_elem_of_further.
Qed.

Lemma Array_find_Some {A} (p : A → Result bool) l x :
  Array_find p l = Ok (Some x) → x ∈ l ∧ p x = Ok true.
Proof.
  induction l as [|y l IH]; [done|]. rewrite Array_find_cons.
  destruct (p y) as [[]|] eqn:Hp; simpl; [| |done].
  - intros [= <-]. split; [apply list_elem_of_here|done].
  - intros H. destruct (IH H). split; [by apply list_elem_of_further|done].
Qed.

Lemma Array_find_None {A} (p : A → Result bool) l :
  Array_find p l = Ok None ↔ Forall (λ x, p x = Ok false) l.
Proof.
  induction l as [|y l IH]; [by split; [constructor|]|]. rewrite Array_find_cons.
  rewrite Forall_cons. destruct (p y) as [[]|] eqn:Hp; simpl.
  - split; [done|by intros [? _]].
  - rewrite IH. by split; [|intros [_ ?]].
  - split; [done|by intros [? _]].
Qed.

Lemma Array_find_insert {A} (p : A → Result bool) l k i x x' :
  findIndex_from p k l = Ok (Some i) → l !! (i - k)%nat = Some x → p x' = p x →
  Array_find p (<[(i - k)%nat := x']> l) = Ok (Some x').
Proof.
  revert k. induction l as [|y l IH]; intros k; [done|]. simpl.
  unfold mbind, Result_bind, result_bind.
  destruct (p y) as [[]|] eqn:Hp; [| |done].
  - intros [= <-]. rewrite Nat.sub_diag. intros [= <-] Hx. simpl.
    unfold mbind, Result_bind, result_bind. by rewrite Hx, Hp.
  - intros H Hx Hpx. destruct (findIndex_from_lookup _ _ _ _ H) as (_ & Hle & _).
    replace (i - k)%nat with (S (i - S k)) in * by lia. simpl.
    unfold mbind, Result_bind, result_bind. rewrite Hp. eauto.
Qed.

Section Family.
Context `{P : Platform}.

Lemma id_is_optional_toString v u :
  nullish v = false → id_is_optional v u = id_is_toString v u.
Proof.
  intros Hv. unfold id_is_optional, id_is_toString, optional_toString, toString.
  rewrite Hv. destruct (nullish (prop u "_id")); reflexivity.
Qed.

Lemma probe_nullish v l :
  nullish v = true → Array_some (id_is_optional v) l ≠ Ok true.
Proof.
  intros Hv. induction l as [|u l IH]; [done|]. rewrite Array_some_cons.
  unfold id_is_optional at 1, optional_toString, toString. rewrite Hv.
  destruct (nullish (prop u "_id")); done.
Qed.

(** When the probe of [createTask] finds a user, the populate lookup
    returns one, and its id prints as the payload's [user]. *)
Lemma probe_find v l :
  Array_some (id_is_optional v) l = Ok true →
  ∃ u, Array_find (id_is_toString v) l = Ok (Some u) ∧ u ∈ l
       ∧ has_id u ∧ id_text u = String_ v ∧ nullish v = false.
Proof.
  intros H. destruct (nullish v) eqn:Hv; [by destruct (probe_nullish v l Hv)|].
  destruct (Array_some_find _ _ H) as (u & Hf & Hin & Hu).
  exists u. rewrite <- (Array_find_ext (id_is_optional v)); 
    [|intros; by apply id_is_optional_toString].
  split_and!; try done.
  - unfold has_id. unfold id_is_optional, toString in Hu.
    by destruct (nullish (prop u "_id")).
  - unfold id_text. unfold id_is_optional, toString, optional_toString in Hu.
    rewrite Hv in Hu. destruct (nullish (prop u "_id")); [done|]. simpl in Hu.
    injection Hu as Hu. by apply String.eqb_eq.
Qed.

Lemma id_is_true id u : id_is id u = Ok true ↔ has_id u ∧ id_text u = id.
Proof.
  unfold id_is, toString, has_id, id_text.
  destruct (nullish (prop u "_id")); simpl; [by split; [|intros [? _]]|].
  split.
  - intros [= H]. by apply String.eqb_eq in H.
  - intros [_ ->]. by rewrite String.eqb_refl.
Qed.

Lemma id_is_toString_str id u : id_is_toString (VStr id) u = id_is id u.
Proof.
  unfold id_is_toString, id_is, toString.
  destruct (nullish (prop u "_id")); reflexivity.
Qed.

Ltac run :=
  unfold mbind, mret, M_bind, M_ret, lift, throw, query, command,
    isInMemoryMode, getInMemoryUsers, getInMemoryTasks,
    setInMemoryUsers, setInMemoryTasks; simpl.

Ltac open_op op :=
  destruct op; unfold perform, getAllUsers, getUserById, createUser, updateUser, deleteUser,
    getAllTasks, getTaskById, createTask, updateTask, updateTaskStatus,
    moveTaskToUser, deleteTask; run.

(** X20.  The four read operations (getAllUsers, getUserById, getAllTasks,
    getTaskById) leave the whole store as it was, in either mode, whether
    they return or throw. *)
Theorem reads_leave_store (op : Operation) (st : Store) :
  is_read op = true → (perform op st).2 = st.
Proof.
  open_op op; intros Hr; try discriminate Hr; repeat case_match; simpl; done.
Qed.

(** X21.  No operation changes the mode flag; in fallback mode no operation
    touches the database, and in durable mode none touches the in-memory
    collections. *)
Theorem mode_and_stores_separate (op : Operation) (st : Store) :
  let st' := (perform op st).2 in
  inMemoryMode st' = inMemoryMode st
  ∧ (inMemoryMode st = true → database st' = database st)
  ∧ (inMemoryMode st = false →
     inMemoryUsers st' = inMemoryUsers st ∧ inMemoryTasks st' = inMemoryTasks st).
Proof.
  open_op op; repeat case_match; simplify_eq/=; split_and!; intros; try done;
    congruence.
Qed.

(** X22.  The user operations never change the in-memory tasks (deleting a
    user deletes none of their tasks) and the task operations never change
    the in-memory users, in either mode. *)
Theorem controllers_stay_in_their_collection (op : Operation) (st : Store) :
  let st' := (perform op st).2 in
  if is_user_operation op
  then inMemoryTasks st' = inMemoryTasks st
  else inMemoryUsers st' = inMemoryUsers st.
Proof.
  open_op op; repeat case_match; simplify_eq/=; done.
Qed.


Lemma createUser_failure (st st' : Store) oid createdAt updatedAt userData e :
  inMemoryMode st = true →
  createUser oid createdAt updatedAt userData st = (Throw e, st') → st' = st.
Proof.
  intros Hmode. unfold createUser. run.
  repeat (first [rewrite Hmode|case_match]; simplify_eq/=); congruence.
Qed.

Lemma updateUser_failure (st st' : Store) now id userData e :
  inMemoryMode st = true →
  updateUser now id userData st = (Throw e, st') → st' = st.
Proof.
  intros Hmode. unfold updateUser. run.
  repeat (first [rewrite Hmode|case_match]; simplify_eq/=); congruence.
Qed.

(** X23.  In fallback mode every operation other than updateTask and
    updateTaskStatus makes its checks before it writes: when it throws, the
    store is as it was. *)
Theorem failed_operations_write_nothing (op : Operation) (st : Store) e :
  inMemoryMode st = true →
  is_task_patch op = false →
  (perform op st).1 = Throw e →
  (perform op st).2 = st.
Proof.
  intros Hmode Hop.
  destruct op; try discriminate Hop; simpl perform.
  all: try (unfold getAllUsers, getUserById, createUser, updateUser, deleteUser,
              getAllTasks, getTaskById, deleteTask; run;
            repeat (first [rewrite Hmode|case_match]; simplify_eq/=); done).
  - unfold createTask. run. rewrite Hmode.
    destruct (Array_some _ _) as [[]|] eqn:Hsome; simpl; [|done|done].
    destruct (probe_find _ _ Hsome) as (u & -> & _). done.
  - unfold moveTaskToUser. run. rewrite Hmode.
    destruct (Array_some _ _) as [[]|] eqn:Hsome; simpl; [|done|done].
    destruct (Array_some_find _ _ Hsome) as (u & Hu & _).
    destruct (Array_findIndex _ _) as [[i|]|]; simpl; [|done|done].
    by rewrite Hu.
Qed.

(** X14.  In fallback mode, when the probe finds the payload's user,
    [createTask] appends the new task and returns it with the user record
    embedded, and [getTaskById] on the new id returns the same; title,
    description and status are the payload's when truthy and otherwise the
    empty string, the empty string and pending; no other property of the
    payload is stored. *)
Theorem createTask_creates (st : Store) oid createdAt updatedAt (taskData : Doc) :
  inMemoryMode st = true →
  userExists st (prop taskData "user") = Ok true →
  Array_find (id_is oid) (inMemoryTasks st) = Ok None →
  let task := newTask oid createdAt updatedAt taskData in
  let st' := mkStore true (inMemoryUsers st) (inMemoryTasks st ++ [task]) (database st) in
  ∃ u, u ∈ inMemoryUsers st ∧ id_text u = String_ (prop taskData "user")
    ∧ createTask oid createdAt updatedAt taskData st
      = (Ok (ReplyData (DataTask (with_user task (Some u)))), st')
    ∧ getTaskById oid st' = (Ok (ReplyData (DataTask (with_user task (Some u)))), st')
    ∧ (∀ k, k ∈ ["title"; "description"; "status"] →
            truthy (prop taskData k) = true → task !! k = Some (prop taskData k))
    ∧ (taskData !! "status" = None → task !! "status" = Some (VStr "pending"))
    ∧ (taskData !! "title" = None → task !! "title" = Some (VStr EmptyString))
    ∧ (taskData !! "description" = None →
       task !! "description" = Some (VStr EmptyString))
    ∧ (∀ k, k ∉ ["_id"; "title"; "description"; "status"; "user"; "createdAt";
                 "updatedAt"] → task !! k = None).
Proof.
  intros Hmode Hprobe Hfresh task st'. unfold userExists in Hprobe.
  rewrite Hmode in Hprobe.
  destruct (probe_find _ _ Hprobe) as (u & Hfind & Hin & _ & Hid & _).
  assert (prop task "user" = prop taskData "user") as Huser.
  { unfold task, newTask. rewrite !prop_insert_ne by done. by rewrite prop_insert_eq. }
  exists u. split_and!; try done.
  - unfold createTask. run. rewrite Hmode, Hprobe. simpl. rewrite Hfind. simpl.
    by rewrite Hmode.
  - unfold getTaskById. run. rewrite (Array_find_app_None _ _ _ Hfresh). simpl.
    assert (id_is oid task = Ok true) as ->.
    { apply id_is_true. unfold has_id, id_text, task, newTask.
      rewrite !prop_insert_ne by done. unfold prop. by rewrite lookup_singleton_eq. }
    simpl. rewrite Huser, Hfind. reflexivity.
  - intros k Hk Ht. unfold task, newTask, js_or.
    repeat (apply elem_of_cons in Hk as [->|Hk]);
      [| | |by apply elem_of_nil in Hk];
      rewrite !lookup_insert_ne by done; rewrite lookup_insert_eq; by rewrite Ht.
  - intros H. unfold task, newTask. rewrite !lookup_insert_ne by done.
    rewrite lookup_insert_eq. unfold prop. by rewrite H.
  - intros H. unfold task, newTask. rewrite !lookup_insert_ne by done.
    rewrite lookup_insert_eq. unfold prop. by rewrite H.
  - intros H. unfold task, newTask. rewrite !lookup_insert_ne by done.
    rewrite lookup_insert_eq. unfold prop. by rewrite H.
  - intros k Hk. unfold task, newTask.
    rewrite !lookup_insert_ne by set_solver. apply lookup_singleton_ne. set_solver.
Qed.

End Family.

(* ===================================================================== *)
(** ** Deleting, reading and patching                                     *)
(* ===================================================================== *)

Lemma Array_filter_cons {A} (p : A → Result bool) x l :
  Array_filter p (x :: l)
  = result_bind (p x) (λ b : bool,
      result_bind (Array_filter p l) (λ xs, Ok (if b then x :: xs else xs))).
Proof. reflexivity. Qed.

Lemma Array_map_cons {A B} (f : A → Result B) x l :
  Array_map f (x :: l)
  = result_bind (f x) (λ y, result_bind (Array_map f l) (λ ys, Ok (y :: ys))).
Proof. reflexivity. Qed.

Lemma Array_map_lookup {A B} (f : A → Result B) l l' :
  Array_map f l = Ok l' →
  List.length l' = List.length l
  ∧ ∀ i x, l !! i = Some x → ∃ y, f x = Ok y ∧ l' !! i = Some y.
Proof.
  revert l'. induction l as [|a l IH]; intros l'.
  - intros [= <-]. split; [done|]. by intros i x.
  - rewrite Array_map_cons. destruct (f a) as [b|] eqn:Hf; simpl; [|done].
    destruct (Array_map f l) as [ys|] eqn:Hm; simpl; [|done].
    intros [= <-]. destruct (IH ys eq_refl) as [Hlen Hlook].
    split; [simpl; by rewrite Hlen|].
    intros [|i] x; simpl; [intros [= <-]; eauto|]. apply Hlook.
Qed.

Lemma some_from_true_iff {A} (p : A → nat → bool) k l :
  some_from p k l = true ↔ ∃ j x, l !! j = Some x ∧ p x (k + j)%nat = true.
Proof.
  revert k. induction l as [|y l IH]; intros k; simpl.
  - split; [done|]. by intros (j & x & ? & _).
  - rewrite orb_true_iff, IH. split.
    + intros [H|(j & x & Hx & Hp)].
      * exists 0%nat, y. by rewrite Nat.add_0_r.
      * exists (S j), x. split; [done|]. by replace (k + S j)%nat with (S k + j)%nat by lia.
    + intros ([|j] & x & Hx & Hp); simpl in Hx.
      * injection Hx as <-. left. by rewrite Nat.add_0_r in Hp.
      * right. exists j, x. split; [done|].
        by replace (S k + j)%nat with (k + S j)%nat by lia.
Qed.

Lemma email_text_unique_cons (u : Doc) (l : list Doc) :
  email_text_unique (u :: l) ↔
  (∀ v e, v ∈ l → prop u "email" = VStr e → prop v "email" ≠ VStr e)
  ∧ email_text_unique l.
Proof.
  split.
  - intros H. split.
    + intros v e Hv Hu Hve. apply list_elem_of_lookup in Hv as [j Hj].
      assert (0 = S j)%nat; [|done]. by apply (H 0%nat (S j) u v e).
    + intros i j a b e Hi Hj Ha Hb.
      assert (S i = S j) as [= ?]; [|done]. by apply (H (S i) (S j) a b e).
  - intros [Hu Hl] [|i] [|j] a b e; simpl; intros Hi Hj Ha Hb; simplify_eq; try done.
    + exfalso. eapply (Hu b e); [by eapply list_elem_of_lookup_2|done|done].
    + exfalso. eapply (Hu a e); [by eapply list_elem_of_lookup_2|done|done].
    + f_equal. by apply (Hl i j a b e).
Qed.

Lemma email_text_unique_sublist (k l : list Doc) :
  sublist k l → email_text_unique l → email_text_unique k.
Proof.
  induction 1 as [|x k l Hs IH|x k l Hs IH].
  - done.
  - rewrite !email_text_unique_cons. intros [Hx Hl]. split; [|auto].
    intros v e Hv. apply Hx. by eapply elem_of_sublist.
  - rewrite email_text_unique_cons. intros [_ Hl]. auto.
Qed.

Section Lifecycle.
Context `{P : Platform}.

Ltac run :=
  unfold mbind, mret, M_bind, M_ret, lift, throw, query, command,
    isInMemoryMode, getInMemoryUsers, getInMemoryTasks,
    setInMemoryUsers, setInMemoryTasks; simpl.

Lemma id_is_has_id id u : has_id u → id_is id u = Ok (String.eqb (id_text u) id).
Proof. unfold has_id, id_is, toString, id_text. by intros ->. Qed.

Lemma id_is_not_has_id id u :
  has_id u → id_is_not id u = Ok (negb (String.eqb (id_text u) id)).
Proof. unfold has_id, id_is_not, toString, id_text. by intros ->. Qed.

(** On documents that all have an [_id], the filter of [deleteUser] and
    [deleteTask] keeps, in order, exactly those with another id. *)
Lemma Array_filter_id_is_not id (l : list Doc) :
  Forall has_id l →
  ∃ kept, Array_filter (id_is_not id) l = Ok kept
    ∧ sublist kept l
    ∧ Array_find (id_is id) kept = Ok None
    ∧ (∀ u, u ∈ kept ↔ u ∈ l ∧ id_text u ≠ id).
Proof.
  induction 1 as [|u l Hu Hl (kept & Hk & Hsub & Hfind & Hin)].
  - exists []. split_and!; [done|done|done|]. intros u. set_solver.
  - rewrite Array_filter_cons, (id_is_not_has_id _ _ Hu), Hk. simpl.
    destruct (String.eqb_spec (id_text u) id) as [Heq|Hne]; simpl.
    + exists kept. split_and!; [done|by constructor|done|].
      intros v. rewrite Hin, elem_of_cons. split; [naive_solver|].
      intros [[->|?] ?]; done.
    + exists (u :: kept). split_and!; [done|by constructor| |].
      * rewrite Array_find_cons, (id_is_has_id _ _ Hu).
        apply String.eqb_neq in Hne. by rewrite Hne.
      * intros v. rewrite !elem_of_cons, Hin. naive_solver.
Qed.


(** *** Deleting *)

(** X12.  In fallback mode, on users that all have an [_id], [deleteUser]
    with an id that resolves succeeds, removes every user with that id and
    no other, keeps the order of the rest and leaves the tasks alone;
    [getUserById] on that id then reports NotFound. *)
Theorem deleteUser_then_getUserById (st : Store) id i :
  inMemoryMode st = true →
  Forall has_id (inMemoryUsers st) →
  userIndex st id = Ok (Some i) →
  ∃ kept,
    let st' := mkStore true kept (inMemoryTasks st) (database st) in
    deleteUser id st
    = (Ok (ReplyMessage ("Usuario con ID " +:+ id +:+ " eliminado correctamente")), st')
    ∧ getUserById id st'
      = (Throw (AppError.notFound ("Usuario con ID " +:+ id +:+ " no encontrado")), st')
    ∧ sublist kept (inMemoryUsers st)
    ∧ (∀ u, u ∈ kept ↔ u ∈ inMemoryUsers st ∧ id_text u ≠ id).
Proof.
  intros Hmode Hwf Hidx. unfold userIndex in Hidx.
  destruct (Array_filter_id_is_not id _ Hwf) as (kept & Hk & Hsub & Hfind & Hin).
  exists kept. split_and!; try done.
  - unfold deleteUser. run. rewrite Hmode, Hidx. simpl. rewrite Hk. simpl.
    by rewrite Hmode.
  - unfold getUserById. run. by rewrite Hfind.
Qed.

(** X18.  In fallback mode, on tasks that all have an [_id], [deleteTask]
    with an id that resolves succeeds, removes every task with that id and
    no other and leaves the users alone; [getTaskById] on that id then
    reports NotFound. *)
Theorem deleteTask_then_getTaskById (st : Store) id i :
  inMemoryMode st = true →
  Forall has_id (inMemoryTasks st) →
  taskIndex st id = Ok (Some i) →
  ∃ kept,
    let st' := mkStore true (inMemoryUsers st) kept (database st) in
    deleteTask id st
    = (Ok (ReplyMessage ("Tarea con ID " +:+ id +:+ " eliminada correctamente")), st')
    ∧ getTaskById id st'
      = (Throw (AppError.notFound ("Tarea con ID " +:+ id +:+ " no encontrada")), st')
    ∧ sublist kept (inMemoryTasks st)
    ∧ (∀ t, t ∈ kept ↔ t ∈ inMemoryTasks st ∧ id_text t ≠ id).
Proof.
  intros Hmode Hwf Hidx. unfold taskIndex in Hidx.
  destruct (Array_filter_id_is_not id _ Hwf) as (kept & Hk & Hsub & Hfind & Hin).
  exists kept. split_and!; try done.
  - unfold deleteTask. run. rewrite Hmode, Hidx. simpl. rewrite Hk. simpl.
    by rewrite Hmode.
  - unfold getTaskById. run. by rewrite Hfind.
Qed.

(** *** Reading *)

(** X9.  In fallback mode a successful [getUserById] changes nothing and
    returns a stored user whose [_id] prints as the id asked for. *)
Theorem getUserById_returns_stored (st st' : Store) id r :
  inMemoryMode st = true →
  getUserById id st = (Ok r, st') →
  st' = st ∧ ∃ u, r = ReplyData (DataUser u) ∧ u ∈ inMemoryUsers st
                  ∧ has_id u ∧ id_text u = id.
Proof.
  intros Hmode. unfold getUserById. run. rewrite Hmode.
  destruct (Array_find _ _) as [[u|]|] eqn:Hfind; simpl; [|done|done].
  intros [= <- <-]. split; [done|]. exists u.
  apply Array_find_Some in Hfind as [Hin Hid]. apply id_is_true in Hid as [? ?]. done.
Qed.

(** X19.  In fallback mode a successful [getAllTasks] changes nothing and
    returns one entry per stored task, in order, each with its user
    resolved or else its raw user id; the entry at the index an id resolves
    to is what [getTaskById] returns for that id. *)
Theorem getAllTasks_agrees_with_getTaskById (st st' : Store) r :
  inMemoryMode st = true →
  getAllTasks st = (Ok r, st') →
  st' = st
  ∧ ∃ l, r = ReplyData (DataTasks l)
      ∧ List.length l = List.length (inMemoryTasks st)
      ∧ (∀ i t, inMemoryTasks st !! i = Some t →
           ∃ user,
             Array_find (id_is_toString (prop t "user")) (inMemoryUsers st) = Ok user
             ∧ l !! i = Some (with_user_or_id t user))
      ∧ (∀ id i y, taskIndex st id = Ok (Some i) → l !! i = Some y →
           getTaskById id st = (Ok (ReplyData (DataTask y)), st)).
Proof.
  intros Hmode. unfold getAllTasks. run. rewrite Hmode.
  destruct (Array_map _ _) as [l|] eqn:Hmap; simpl; [|done].
  intros [= <- <-]. split; [done|]. exists l.
  apply Array_map_lookup in Hmap as [Hlen Hlook].
  assert (∀ i t, inMemoryTasks st !! i = Some t →
           ∃ user,
             Array_find (id_is_toString (prop t "user")) (inMemoryUsers st) = Ok user
             ∧ l !! i = Some (with_user_or_id t user)) as Hpoint.
  { intros i t Ht. destruct (Hlook i t Ht) as (y & Hy & Hl).
    unfold mbind, Result_bind, result_bind in Hy.
    destruct (Array_find _ _) as [user|]; [|done]. injection Hy as <-. eauto. }
  split_and!; try done.
  intros id i y Hidx Hy. unfold taskIndex in Hidx.
  destruct (Array_findIndex_lookup _ _ _ Hidx) as (t & Ht & _).
  destruct (Hpoint i t Ht) as (user & Hu & Hl).
  unfold getTaskById. run.
  rewrite Hmode, (Array_find_of_findIndex _ _ _ _ Hidx Ht). simpl. rewrite Hu. simpl.
  congruence.
Qed.

(** *** Patching tasks *)

(** X16.  In fallback mode, after a successful [updateTaskStatus],
    [getTaskById] on the same id returns the task with the new status; the
    patch changed no property but status and updatedAt. *)
Theorem updateTaskStatus_then_getTaskById
    (st : Store) now id status i (task : Doc) user :
  status ∈ TaskStatus.values →
  inMemoryMode st = true →
  taskIndex st id = Ok (Some i) →
  inMemoryTasks st !! i = Some task →
  Array_find (id_is_toString (prop task "user")) (inMemoryUsers st) = Ok user →
  let updatedTask : Doc :=
    <["updatedAt" := VDate now]> (<["status" := VStr status]> task) in
  let st' := (updateTaskStatus now id status st).2 in
  getTaskById id st'
  = (Ok (ReplyData (DataTask (with_user_or_id updatedTask user))), st')
  ∧ with_user_or_id updatedTask user !! "status" = Some (PVal (VStr status))
  ∧ (∀ k, k ≠ "status" → k ≠ "updatedAt" → updatedTask !! k = task !! k).
Proof.
  intros Hin Hmode Hidx Hlook Hfind updatedTask st'.
  unfold st'. rewrite (updateTaskStatus_fallback st now id status i task user) by done.
  fold updatedTask. simpl.
  assert (prop updatedTask "user" = prop task "user") as Huser.
  { unfold updatedTask. by rewrite !prop_insert_ne. }
  split_and!.
  - unfold getTaskById. run. unfold taskIndex in Hidx.
    pose proof (Array_find_insert (id_is id) (inMemoryTasks st) 0%nat i task updatedTask)
      as Hins. rewrite Nat.sub_0_r in Hins. rewrite Hins; [|done|done|].
    + simpl. rewrite Huser, Hfind. reflexivity.
    + unfold id_is, updatedTask. by rewrite !prop_insert_ne.
  - unfold with_user_or_id. rewrite lookup_insert_ne by done. rewrite lookup_fmap.
    unfold updatedTask. rewrite lookup_insert_ne by done. by rewrite lookup_insert_eq.
  - intros k H1 H2. unfold updatedTask. by rewrite !lookup_insert_ne.
Qed.

(** X17.  In fallback mode, when the target user exists and the task id
    resolves, [moveTaskToUser] stores the task with the new user id and the
    time of the call, changes no other property, and returns it with the
    target user's record embedded; [getTaskById] then returns the same. *)
Theorem moveTaskToUser_moves (st : Store) now id userId i (task : Doc) :
  inMemoryMode st = true →
  userIdExists st userId = Ok true →
  taskIndex st id = Ok (Some i) →
  inMemoryTasks st !! i = Some task →
  let updatedTask : Doc :=
    <["updatedAt" := VDate now]> (<["user" := VStr userId]> task) in
  let st' := mkStore true (inMemoryUsers st) (<[i := updatedTask]> (inMemoryTasks st))
                     (database st) in
  ∃ u, u ∈ inMemoryUsers st ∧ has_id u ∧ id_text u = userId
    ∧ moveTaskToUser now id userId st
      = (Ok (ReplyData (DataTask (with_user updatedTask (Some u)))), st')
    ∧ getTaskById id st'
      = (Ok (ReplyData (DataTask (with_user updatedTask (Some u)))), st')
    ∧ (∀ k, k ≠ "user" → k ≠ "updatedAt" → updatedTask !! k = task !! k).
Proof.
  intros Hmode Hprobe Hidx Hlook updatedTask st'.
  unfold userIdExists in Hprobe. rewrite Hmode in Hprobe.
  destruct (Array_some_find _ _ Hprobe) as (u & Hfind & Hin & Hu).
  apply id_is_true in Hu as [Hhas Hid].
  exists u. split_and!; try done.
  - unfold moveTaskToUser, taskIndex in *. run.
    rewrite Hmode, Hprobe. simpl. rewrite Hidx. simpl. rewrite Hlook. simpl.
    fold updatedTask. rewrite Hfind. simpl. by rewrite Hmode.
  - unfold getTaskById. run. unfold taskIndex in Hidx.
    pose proof (Array_find_insert (id_is id) (inMemoryTasks st) 0%nat i task updatedTask)
      as Hins. rewrite Nat.sub_0_r in Hins. rewrite Hins; [|done|done|].
    + simpl.
      assert (prop updatedTask "user" = VStr userId) as ->.
      { unfold updatedTask. rewrite prop_insert_ne by done. by rewrite prop_insert_eq. }
      rewrite (Array_find_ext _ (id_is userId));
        [|intros; apply id_is_toString_str].
      rewrite Hfind. reflexivity.
    + unfold id_is, updatedTask. by rewrite !prop_insert_ne.
  - intros k H1 H2. unfold updatedTask. by rewrite !lookup_insert_ne.
Qed.

(** X15.  In fallback mode, when the task id resolves and the payload's
    user, if truthy, passes the probe, [updateTask] stores the payload
    merged over the stored task: every property of the payload other than
    updatedAt is taken as it is (the status is not checked against the
    enum), the properties it lacks are kept, and updatedAt is the time of
    the call. *)
Theorem updateTask_merges (st : Store) now id i (task taskData : Doc) user :
  inMemoryMode st = true →
  taskIndex st id = Ok (Some i) →
  inMemoryTasks st !! i = Some task →
  (truthy (prop taskData "user") = true →
   userExists st (prop taskData "user") = Ok true) →
  let updatedTask : Doc := <["updatedAt" := VDate now]> (taskData ∪ task) in
  Array_find (id_is_toString (prop updatedTask "user")) (inMemoryUsers st) = Ok user →
  updateTask now id taskData st
  = (Ok (ReplyData (DataTask (with_user updatedTask user))),
     mkStore true (inMemoryUsers st) (<[i := updatedTask]> (inMemoryTasks st))
             (database st))
  ∧ updatedTask !! "updatedAt" = Some (VDate now)
  ∧ (∀ k v, k ≠ "updatedAt" → taskData !! k = Some v → updatedTask !! k = Some v)
  ∧ (∀ k, k ≠ "updatedAt" → taskData !! k = None → updatedTask !! k = task !! k).
Proof.
  intros Hmode Hidx Hlook Hprobe updatedTask Hfind. split_and!.
  - unfold updateTask, taskIndex, userExists in *. run.
    rewrite Hmode in Hprobe. rewrite Hmode, Hidx. simpl.
    destruct (truthy (prop taskData "user")) eqn:Ht.
    + rewrite (Hprobe eq_refl). simpl. rewrite Hlook. simpl. fold updatedTask.
      rewrite Hfind. simpl. by rewrite Hmode.
    + simpl. rewrite Hlook. simpl. fold updatedTask. rewrite Hfind. simpl.
      by rewrite Hmode.
  - unfold updatedTask. by rewrite lookup_insert_eq.
  - intros k v Hk Hv. unfold updatedTask. rewrite lookup_insert_ne by done.
    by apply lookup_union_Some_l.
  - intros k Hk Hv. unfold updatedTask. rewrite lookup_insert_ne by done.
    by rewrite lookup_union_r.
Qed.

End Lifecycle.

(* ===================================================================== *)
(** ** Responses, user updates and the e-mail invariant                   *)
(* ===================================================================== *)

(** *** Errors as the client sees them *)

(** X5.  The three kinds of error the controllers construct come out of
    the error middleware with their own status and type: NotFound 404,
    BadRequest 400, Validation 400 with the violation list as details; the
    message is the error's, or the default text of the kind when the
    message is empty. *)
Theorem errorMiddleware_AppError (message : string) (details : list string) :
  errorMiddleware (AppError.notFound message)
  = (404, mkErrorReply false
            (mkErrorInfo NOT_FOUND (str_or message "Recurso no encontrado") DUndefined))
  ∧ errorMiddleware (AppError.badRequest message)
    = (400, mkErrorReply false
              (mkErrorInfo BAD_REQUEST (str_or message "Solicitud incorrecta") DUndefined))
  ∧ errorMiddleware (AppError.validation message details)
    = (400, mkErrorReply false
              (mkErrorInfo VALIDATION (str_or message "Error de validación")
                           (DMessages details))).
Proof. split_and!; reflexivity. Qed.

Section Responses.
Context `{P : Platform}.

Ltac run :=
  unfold mbind, mret, M_bind, M_ret, lift, throw, query, command,
    isInMemoryMode, getInMemoryUsers, getInMemoryTasks,
    setInMemoryUsers, setInMemoryTasks; simpl.

(** X6.  In either mode, [createUser] with a payload that has violations
    writes nothing, and the client gets status 400 and a ValidationError
    whose details are all the violations in rule order. *)
Theorem createUser_invalid_response
    (st : Store) oid createdAt updatedAt (userData : Doc) :
  violations userData ≠ [] →
  (createUser oid createdAt updatedAt userData st).2 = st
  ∧ failure_response (createUser oid createdAt updatedAt userData st).1
    = Some (400, mkErrorReply false
                   (mkErrorInfo VALIDATION "Error de validación"
                                (DMessages (violations userData)))).
Proof.
  intros Hv. unfold createUser. run.
  assert (validateUserData userData
          = Throw (AppError.validation "Error de validación" (violations userData)))
    as ->.
  { by_sections. fold (violations userData). by destruct (violations userData). }
  done.
Qed.

(** X7.  In fallback mode, [createUser] with a valid payload whose e-mail
    text a stored user already holds writes nothing, and the client gets
    status 409 and a DuplicateError whose details name the e-mail. *)
Theorem createUser_duplicate_response
    (st : Store) oid createdAt updatedAt (userData u : Doc) :
  inMemoryMode st = true →
  validateUserData userData = Ok tt →
  u ∈ inMemoryUsers st →
  prop u "email" = prop userData "email" →
  (createUser oid createdAt updatedAt userData st).2 = st
  ∧ failure_response (createUser oid createdAt updatedAt userData st).1
    = Some (409, mkErrorReply false
                   (mkErrorInfo DUPLICATE "Registro duplicado"
                      (DObject {[ "email" := prop userData "email" ]}))).
Proof.
  intros Hmode Hvalid Hin Hemail. unfold createUser. run.
  rewrite Hvalid. simpl. rewrite Hmode.
  destruct (List.find _ (inMemoryUsers st)) eqn:Hfind; simpl; [done|].
  exfalso. apply find_none_forall in Hfind. rewrite Forall_forall in Hfind.
  specialize (Hfind u Hin). simpl in Hfind. rewrite Hemail in Hfind.
  destruct (validateUserData_email _ Hvalid) as (e & He & _).
  rewrite He in Hfind. simpl in Hfind. by rewrite String.eqb_refl in Hfind.
Qed.

(** X8.  In fallback mode, when no stored user has the id, [getUserById]
    changes nothing and the client gets status 404 and a NotFoundError whose
    message names the id. *)
Theorem getUserById_unknown_response (st : Store) id :
  inMemoryMode st = true →
  Forall (λ u, has_id u ∧ id_text u ≠ id) (inMemoryUsers st) →
  (getUserById id st).2 = st
  ∧ failure_response (getUserById id st).1
    = Some (404, mkErrorReply false
                   (mkErrorInfo NOT_FOUND ("Usuario con ID " +:+ id +:+ " no encontrado")
                                DUndefined)).
Proof.
  intros Hmode Hwf. unfold getUserById. run. rewrite Hmode.
  assert (Array_find (id_is id) (inMemoryUsers st) = Ok None) as ->.
  { apply Array_find_None. eapply Forall_impl; [exact Hwf|].
    intros u [Hu Hne]. simpl. rewrite (id_is_has_id _ _ Hu).
    apply String.eqb_neq in Hne. by rewrite Hne. }
  done.
Qed.

(** *** Updating a user *)

(** X10.  In fallback mode, [updateUser] with a valid payload, an id that
    resolves and an e-mail no other user holds (the user's own current
    e-mail is allowed) stores the payload merged over the stored user with
    updatedAt set to the time of the call; properties the payload lacks are
    kept; when the payload has no [_id], [getUserById] then returns the
    updated record. *)
Theorem updateUser_merges (st : Store) now id i (user userData : Doc) :
  inMemoryMode st = true →
  validateUserData userData = Ok tt →
  userIndex st id = Ok (Some i) →
  inMemoryUsers st !! i = Some user →
  (∀ j v, j ≠ i → inMemoryUsers st !! j = Some v →
          prop v "email" ≠ prop userData "email") →
  let updatedUser : Doc := <["updatedAt" := VDate now]> (userData ∪ user) in
  let st' := mkStore true (<[i := updatedUser]> (inMemoryUsers st)) (inMemoryTasks st)
                     (database st) in
  updateUser now id userData st = (Ok (ReplyData (DataUser updatedUser)), st')
  ∧ (userData !! "_id" = None →
     getUserById id st' = (Ok (ReplyData (DataUser updatedUser)), st'))
  ∧ updatedUser !! "updatedAt" = Some (VDate now)
  ∧ (∀ k v, k ≠ "updatedAt" → userData !! k = Some v → updatedUser !! k = Some v)
  ∧ (∀ k, k ≠ "updatedAt" → userData !! k = None → updatedUser !! k = user !! k).
Proof.
  intros Hmode Hvalid Hidx Hlook Hfree updatedUser st'.
  destruct (validateUserData_email _ Hvalid) as (e & He & Ht).
  assert (Nat.ltb 0 (size userData) = true) as Hsize.
  { apply Nat.ltb_lt. destruct (decide (userData = ∅)) as [->|Hne].
    - by rewrite prop_empty in He.
    - apply map_size_non_empty_iff in Hne. lia. }
  split_and!.
  - unfold updateUser, userIndex in *. run. rewrite Hsize, Hvalid. simpl.
    rewrite Hmode, Hidx. simpl. rewrite He, Ht.
    assert (some_from
              (λ (u : Doc) (i0 : nat),
                 strict_eq (prop u "email") (VStr e) && negb (i0 =? i)%nat)
              0 (inMemoryUsers st) = false) as ->.
    { apply not_true_is_false. intros (j & v & Hv & Hp)%some_from_true_iff.
      simpl in Hp. apply andb_true_iff in Hp as [Heq Hj].
      apply negb_true_iff, Nat.eqb_neq in Hj.
      apply (Hfree j v Hj Hv). rewrite He.
      destruct (prop v "email"); try done. simpl in Heq.
      by apply String.eqb_eq in Heq as ->. }
    simpl. rewrite Hlook. simpl. fold updatedUser. by rewrite Hmode.
  - intros Hid. unfold getUserById. run. unfold userIndex in Hidx.
    pose proof (Array_find_insert (id_is id) (inMemoryUsers st) 0%nat i user updatedUser)
      as Hins. rewrite Nat.sub_0_r in Hins. rewrite Hins; [done|done|done|].
    unfold id_is, updatedUser, prop. rewrite lookup_insert_ne by done.
    by rewrite lookup_union_r.
  - unfold updatedUser. by rewrite lookup_insert_eq.
  - intros k v Hk Hv. unfold updatedUser. rewrite lookup_insert_ne by done.
    by apply lookup_union_Some_l.
  - intros k Hk Hv. unfold updatedUser. rewrite lookup_insert_ne by done.
    by rewrite lookup_union_r.
Qed.

(** X11.  In fallback mode, [updateUser] with a valid payload whose e-mail
    text another stored user holds writes nothing, and the client gets
    status 409 and a DuplicateError whose details name the e-mail. *)
Theorem updateUser_taken_email_response
    (st : Store) now id i j (other userData : Doc) :
  inMemoryMode st = true →
  validateUserData userData = Ok tt →
  userIndex st id = Ok (Some i) →
  j ≠ i →
  inMemoryUsers st !! j = Some other →
  prop other "email" = prop userData "email" →
  (updateUser now id userData st).2 = st
  ∧ failure_response (updateUser now id userData st).1
    = Some (409, mkErrorReply false
                   (mkErrorInfo DUPLICATE "Registro duplicado"
                      (DObject {[ "email" := prop userData "email" ]}))).
Proof.
  intros Hmode Hvalid Hidx Hj Hlook Hemail.
  destruct (validateUserData_email _ Hvalid) as (e & He & Ht).
  assert (Nat.ltb 0 (size userData) = true) as Hsize.
  { apply Nat.ltb_lt. destruct (decide (userData = ∅)) as [->|Hne].
    - by rewrite prop_empty in He.
    - apply map_size_non_empty_iff in Hne. lia. }
  unfold updateUser, userIndex in *. run. rewrite Hsize, Hvalid. simpl.
  rewrite Hmode, Hidx. simpl. rewrite He, Ht.
  assert (some_from
            (λ (u : Doc) (i0 : nat),
               strict_eq (prop u "email") (VStr e) && negb (i0 =? i)%nat)
            0 (inMemoryUsers st) = true) as ->.
  { apply some_from_true_iff. exists j, other. split; [done|]. simpl.
    rewrite Hemail, He. simpl. rewrite String.eqb_refl. simpl.
    apply negb_true_iff, Nat.eqb_neq. done. }
  done.
Qed.

(** *** The e-mail texts stay pairwise different *)

(** X13.  In fallback mode every operation keeps the e-mail texts of the
    stored users pairwise different. *)
Theorem operations_keep_email_text_unique (op : Operation) (st : Store) :
  inMemoryMode st = true →
  email_text_unique (inMemoryUsers st) →
  email_text_unique (inMemoryUsers (perform op st).2).
Proof.
  intros Hmode Huniq. destruct op; simpl perform.
  all: try (unfold getAllUsers, getUserById, getAllTasks, getTaskById, createTask,
              updateTask, updateTaskStatus, moveTaskToUser, deleteTask; run;
            repeat (first [rewrite Hmode|case_match]; simplify_eq/=); done).
  - destruct (createUser oid createdAt updatedAt userData st) as [[r|e] st'] eqn:E.
    + exact (createUser_email_text_unique st st' _ _ _ _ r Hmode Huniq E).
    + by rewrite (createUser_failure _ _ _ _ _ _ _ Hmode E).
  - destruct (updateUser now id userData st) as [[r|e] st'] eqn:E.
    + exact (updateUser_email_text_unique st st' _ _ _ r Hmode Huniq E).
    + by rewrite (updateUser_failure _ _ _ _ _ _ Hmode E).
  - unfold deleteUser. run. rewrite Hmode.
    destruct (Array_findIndex _ _) as [[i|]|]; simpl; [|done|done].
    destruct (Array_filter _ _) as [kept|] eqn:Hk; simpl; [|done].
    eapply email_text_unique_sublist; [|done].
    clear -Hk. revert kept Hk. induction (inMemoryUsers st) as [|u l IH]; intros kept.
    + intros [= <-]. constructor.
    + rewrite Array_filter_cons. destruct (id_is_not id u) as [b|]; simpl; [|done].
      destruct (Array_filter _ l) as [xs|]; simpl; [|done].
      intros [= <-]. destruct b; constructor; auto.
Qed.

End Responses.

(* ===================================================================== *)
(** ** Closed instances on the concrete platform                          *)
(* ===================================================================== *)

#[local] Existing Instance empty_platform.

(** A closed equation is settled by evaluating its two sides. *)
Ltac by_evaluation :=
  lazymatch goal with
  | |- @eq ?T ?a ?b =>
      tryif has_evar b
      then (let a' := eval vm_compute in a in
            unify a' b; exact (@eq_refl T a' <: a = a'))
      else exact (@eq_refl T b <: a = b)
  end.

Example scenario_stores :
  with_ann = @mkStore empty_platform true [newUser U1 1 1 ann] [] tt
  ∧ with_task = @mkStore empty_platform true [newUser U1 1 1 ann] [task1] tt
  ∧ dangling = @mkStore empty_platform true [] [task1] tt.
Proof. split_and!; by_evaluation. Qed.

Lemma createTask_missing_user_witness :
  userExists with_ann (prop orphan_report "user") = Ok false
  ∧ createTask T1 2 2 orphan_report with_ann
    = (Throw (AppError.badRequest
                ("Usuario con ID " +:+ String_ (prop orphan_report "user")
                 +:+ " no existe")),
       with_ann).
Proof.
  split; [by_evaluation|].
  apply (createTask_missing_user (P:=empty_platform) with_ann T1 2 2 orphan_report).
  by_evaluation.
Defined.

(** The message names the id, and the durable branch behaves the same. *)
Example createTask_missing_user_message :
  createTask T1 2 2 orphan_report with_ann
  = (Throw (AppError.badRequest "Usuario con ID 65a000000000000000000002 no existe"),
     with_ann)
  ∧ createTask T1 2 2 orphan_report durable0
    = (Throw (AppError.badRequest "Usuario con ID 65a000000000000000000002 no existe"),
       durable0).
Proof. split; by_evaluation. Qed.

(** With the user registered the task is created and comes back populated. *)
Example createTask_for_ann :
  createTask T1 2 2 report with_ann
  = (Ok (ReplyData (DataTask (with_user task1 (Some (newUser U1 1 1 ann))))), with_task).
Proof. by_evaluation. Qed.

(** The same e-mail text twice: the second [createUser] throws the error
    that [handleError] reports as DuplicateError, status 409. *)
Example createUser_same_email_duplicate :
  createUser U2 2 2 ann with_ann
  = (Throw (duplicate_email (VStr "ann@example.com")), with_ann)
  ∧ handleError (duplicate_email (VStr "ann@example.com"))
    = mkApiError DUPLICATE "Registro duplicado"
        (DObject {[ "email" := VStr "ann@example.com" ]}) 409.
Proof. split; by_evaluation. Qed.



Lemma updateTaskStatus_unresolved_user_witness :
  (∃ t, getTaskById T1 dangling = (Ok (ReplyData (DataTask t)), dangling)
        ∧ t !! "user" = Some (PVal (prop task1 "user")))
  ∧ (∃ t st', updateTaskStatus 3 T1 "completed" dangling
              = (Ok (ReplyData (DataTask t)), st')
              ∧ t !! "user" = Some (PVal VUndefined)).
Proof.
  apply (updateTaskStatus_unresolved_user (P:=empty_platform)
           dangling 3 T1 "completed" 0%nat task1).
  - reflexivity.
  - unfold TaskStatus.values. do 2 apply list_elem_of_further. apply list_elem_of_here.
  - by_evaluation.
  - by_evaluation.
  - by_evaluation.
Defined.

(** The same two calls, evaluated: the raw id against [undefined]. *)
Example dangling_user_evaluated :
  prop task1 "user" = VStr U1
  ∧ getTaskById T1 dangling
    = (Ok (ReplyData (DataTask (<["user" := PVal (VStr U1)]> (PVal <$> task1)))),
       dangling)
  ∧ (updateTaskStatus 3 T1 "completed" dangling).1
    = Ok (ReplyData (DataTask
            (<["user" := PVal VUndefined]>
               (PVal <$> <["updatedAt" := VDate 3]>
                           (<["status" := VStr "completed"]> task1))))).
Proof. split_and!; by_evaluation. Qed.

(** [updateTask] with a payload that leaves [user] alone loses the id the
    same way. *)
Example updateTask_dangling_user_evaluated :
  (updateTask 3 T1 {[ "title" := VStr "Write the report" ]} dangling).1
  = Ok (ReplyData (DataTask
          (<["user" := PVal VUndefined]>
             (PVal <$> <["updatedAt" := VDate 3]>
                         (<["title" := VStr "Write the report"]> task1))))).
Proof. by_evaluation. Qed.

Lemma reassign_probe_order_witness :
  moveTaskToUser 3 T1 U1 fallback0
  = (Throw (AppError.badRequest ("Usuario con ID " +:+ U1 +:+ " no existe")), fallback0)
  ∧ moveTaskToUser 3 T1 U1 durable0
    = (Throw (AppError.badRequest ("Usuario con ID " +:+ U1 +:+ " no existe")), durable0)
  ∧ updateTask 3 T1 {[ "user" := VStr U1 ]} fallback0
    = (Throw (AppError.notFound ("Tarea con ID " +:+ T1 +:+ " no encontrada")), fallback0)
  ∧ updateTask 3 T1 {[ "user" := VStr U1 ]} durable0
    = (Throw (AppError.badRequest
                ("Usuario con ID "
                 +:+ String_ (prop ({[ "user" := VStr U1 ]} : Doc) "user")
                 +:+ " no existe")),
       durable0).
Proof.
  split_and!.
  - apply (proj1 (reassign_probe_order (P:=empty_platform) fallback0 3 T1 U1 ∅)).
    reflexivity.
  - apply (proj1 (reassign_probe_order (P:=empty_platform) durable0 3 T1 U1 ∅)).
    reflexivity.
  - apply (proj1 (proj2 (reassign_probe_order (P:=empty_platform)
                           fallback0 3 T1 U1 {[ "user" := VStr U1 ]})));
      reflexivity.
  - apply (proj2 (proj2 (reassign_probe_order (P:=empty_platform)
                           durable0 3 T1 U1 {[ "user" := VStr U1 ]})));
      reflexivity.
Defined.

(** C10, the claim as stated fails: in durable mode, with neither the task
    nor the user in the database, [updateTask] does not report NotFound for
    the task; it reports the missing user. *)
Lemma updateTask_durable_probes_user_first :
  Task_findById_populate (Platform:=empty_platform) (VStr T1) tt = Ok None
  ∧ User_exists (Platform:=empty_platform) (VStr U1) tt = Ok false
  ∧ (updateTask 3 T1 {[ "user" := VStr U1 ]} durable0).1
    = Throw (AppError.badRequest "Usuario con ID 65a000000000000000000001 no existe")
  ∧ (updateTask 3 T1 {[ "user" := VStr U1 ]} durable0).1
    ≠ Throw (AppError.notFound "Tarea con ID 65b000000000000000000001 no encontrada").
Proof.
  split_and!; [reflexivity|reflexivity|by_evaluation|].
  vm_compute. discriminate.
Qed.



Lemma updateUser_empty_refreshes_updatedAt_witness :
  let updatedUser : Doc := <["updatedAt" := VDate 5]> (newUser U1 1 1 ann) in
  updateUser 5 U1 ∅ with_ann
  = (Ok (ReplyData (DataUser updatedUser)),
     mkStore true (<[0%nat := updatedUser]> (inMemoryUsers with_ann))
             (inMemoryTasks with_ann) (database with_ann))
  ∧ updatedUser !! "updatedAt" = Some (VDate 5)
  ∧ (∀ k, k ≠ "updatedAt" → updatedUser !! k = newUser U1 1 1 ann !! k).
Proof.
  apply (updateUser_empty_refreshes_updatedAt (P:=empty_platform)
           with_ann 5 U1 0%nat (newUser U1 1 1 ann)).
  - reflexivity.
  - by_evaluation.
  - by_evaluation.
Defined.

(** C4, the claim as stated fails: Ann was stored at time 1; an empty update
    at time 5 succeeds but does not return the stored record nor leave the
    store as it was: [updatedAt] moves from 1 to 5. *)
Lemma updateUser_empty_changes_updatedAt :
  inMemoryUsers with_ann = [newUser U1 1 1 ann]
  ∧ prop (newUser U1 1 1 ann) "updatedAt" = VDate 1
  ∧ updateUser 5 U1 ∅ with_ann
    ≠ (Ok (ReplyData (DataUser (newUser U1 1 1 ann))), with_ann)
  ∧ (∃ user st', updateUser 5 U1 ∅ with_ann = (Ok (ReplyData (DataUser user)), st')
                 ∧ prop user "updatedAt" = VDate 5
                 ∧ (λ u, prop u "updatedAt") <$> inMemoryUsers st' = [VDate 5]).
Proof.
  split_and!.
  - by_evaluation.
  - by_evaluation.
  - intros H. apply (f_equal (λ r, (λ u, prop u "updatedAt") <$> inMemoryUsers r.2)) in H.
    vm_compute in H. discriminate H.
  - eexists _, _. split_and!; [by_evaluation|by_evaluation|].
    by_evaluation.
Qed.

Lemma updateUser_partial_requires_name_witness :
  ∃ errors,
    updateUser 5 U1 {[ "email" := VStr "ann@example.com" ]} with_ann
    = (Throw (AppError.validation "Error de validación"
                ("El nombre es obligatorio" :: errors)), with_ann).
Proof.
  apply (updateUser_partial_requires_name (P:=empty_platform)
           with_ann 5 U1 {[ "email" := VStr "ann@example.com" ]}).
  - apply map_non_empty_singleton.
  - reflexivity.
Defined.

(** The failing input of C2, evaluated: a valid e-mail alone is rejected,
    the only violation being the absent name, in both modes. *)
Example updateUser_email_only_rejected :
  updateUser 5 U1 {[ "email" := VStr "ann@example.com" ]} with_ann
  = (Throw (AppError.validation "Error de validación" ["El nombre es obligatorio"]),
     with_ann)
  ∧ updateUser 5 U1 {[ "email" := VStr "ann@example.com" ]} durable0
    = (Throw (AppError.validation "Error de validación" ["El nombre es obligatorio"]),
       durable0).
Proof. split; by_evaluation. Qed.

(* ===================================================================== *)
(** ** Closed instances of the further properties                         *)
(* ===================================================================== *)

Example more_stores :
  with_bob = @mkStore empty_platform true [newUser U1 1 1 ann; newUser U2 3 3 bob]
               [task1] tt.
Proof. by_evaluation. Qed.

Lemma validateUserData_age_bounds_witness :
  validateUserData (<["age" := VNum (NFinite (Qmake 120 1))]> ann) = Ok tt
  ↔ (0 ≤ 120 ≤ 120)%Z.
Proof. apply validateUserData_age_bounds. by_evaluation. Defined.

Lemma validateUserData_blank_name_witness :
  validateUserData {[ "name" := VStr "   "; "email" := VStr "ann@example.com" ]}
  ≠ Ok tt.
Proof.
  apply (validateUserData_blank_name _ "   "); by_evaluation.
Defined.

Lemma createUser_invalid_response_witness :
  (createUser U2 2 2 {[ "name" := VStr "A" ]} with_ann).2 = with_ann
  ∧ failure_response (createUser U2 2 2 {[ "name" := VStr "A" ]} with_ann).1
    = Some (400, mkErrorReply false
                   (mkErrorInfo VALIDATION "Error de validación"
                      (DMessages (violations {[ "name" := VStr "A" ]})))).
Proof.
  apply (createUser_invalid_response (P:=empty_platform)).
  vm_compute. discriminate.
Defined.

Lemma createUser_duplicate_response_witness :
  (createUser U2 2 2 ann with_ann).2 = with_ann
  ∧ failure_response (createUser U2 2 2 ann with_ann).1
    = Some (409, mkErrorReply false
                   (mkErrorInfo DUPLICATE "Registro duplicado"
                      (DObject {[ "email" := prop ann "email" ]}))).
Proof.
  apply (createUser_duplicate_response (P:=empty_platform)
           with_ann U2 2 2 ann (newUser U1 1 1 ann)).
  - reflexivity.
  - by_evaluation.
  - apply list_elem_of_In. vm_compute. left. reflexivity.
  - by_evaluation.
Defined.

Lemma getUserById_unknown_response_witness :
  (getUserById U2 with_ann).2 = with_ann
  ∧ failure_response (getUserById U2 with_ann).1
    = Some (404, mkErrorReply false
                   (mkErrorInfo NOT_FOUND ("Usuario con ID " +:+ U2 +:+ " no encontrado")
                                DUndefined)).
Proof.
  apply (getUserById_unknown_response (P:=empty_platform)); [reflexivity|].
  replace (inMemoryUsers with_ann) with [newUser U1 1 1 ann]
    by (by_evaluation).
  repeat constructor. vm_compute. discriminate.
Defined.

Lemma getUserById_returns_stored_witness :
  with_ann = with_ann
  ∧ ∃ u, ReplyData (DataUser (newUser U1 1 1 ann)) = ReplyData (DataUser u)
         ∧ u ∈ inMemoryUsers with_ann ∧ has_id u ∧ id_text u = U1.
Proof.
  apply (getUserById_returns_stored (P:=empty_platform) with_ann with_ann U1).
  - reflexivity.
  - by_evaluation.
Defined.

Lemma updateUser_merges_witness :
  let payload : Doc :=
    {[ "name" := VStr "Ann B. Lee"; "email" := VStr "ann@example.com" ]} in
  let updatedUser : Doc := <["updatedAt" := VDate 5]> (payload ∪ newUser U1 1 1 ann) in
  updateUser 5 U1 payload with_bob
  = (Ok (ReplyData (DataUser updatedUser)),
     mkStore true (<[0%nat := updatedUser]> (inMemoryUsers with_bob))
             (inMemoryTasks with_bob) (database with_bob))
  ∧ updatedUser !! "createdAt" = Some (VDate 1).
Proof.
  intros payload updatedUser.
  destruct (updateUser_merges (P:=empty_platform) with_bob 5 U1 0%nat
              (newUser U1 1 1 ann) payload) as (Hu & _ & _ & _ & Hkeep).
  - reflexivity.
  - by_evaluation.
  - by_evaluation.
  - by_evaluation.
  - replace (inMemoryUsers with_bob) with [newUser U1 1 1 ann; newUser U2 3 3 bob]
      by (by_evaluation).
    intros [|[|j]] v Hj Hv; [done| |done].
    injection Hv as <-. vm_compute. discriminate.
  - split; [exact Hu|]. unfold updatedUser. rewrite Hkeep; [|discriminate|reflexivity].
    by_evaluation.
Defined.

Lemma updateUser_taken_email_response_witness :
  let payload : Doc :=
    {[ "name" := VStr "Bob Ray"; "email" := VStr "ann@example.com" ]} in
  (updateUser 5 U2 payload with_bob).2 = with_bob
  ∧ failure_response (updateUser 5 U2 payload with_bob).1
    = Some (409, mkErrorReply false
                   (mkErrorInfo DUPLICATE "Registro duplicado"
                      (DObject {[ "email" := prop payload "email" ]}))).
Proof.
  intros payload.
  apply (updateUser_taken_email_response (P:=empty_platform)
           with_bob 5 U2 1%nat 0%nat (newUser U1 1 1 ann) payload).
  - reflexivity.
  - by_evaluation.
  - by_evaluation.
  - discriminate.
  - by_evaluation.
  - by_evaluation.
Defined.

Lemma deleteUser_then_getUserById_witness :
  ∃ kept,
    let st' := mkStore true kept (inMemoryTasks with_task) (database with_task) in
    deleteUser U1 with_task
    = (Ok (ReplyMessage ("Usuario con ID " +:+ U1 +:+ " eliminado correctamente")), st')
    ∧ getUserById U1 st'
      = (Throw (AppError.notFound ("Usuario con ID " +:+ U1 +:+ " no encontrado")), st')
    ∧ sublist kept (inMemoryUsers with_task)
    ∧ (∀ u, u ∈ kept ↔ u ∈ inMemoryUsers with_task ∧ id_text u ≠ U1).
Proof.
  apply (deleteUser_then_getUserById (P:=empty_platform) with_task U1 0%nat).
  - reflexivity.
  - replace (inMemoryUsers with_task) with [newUser U1 1 1 ann]
      by (by_evaluation).
    repeat constructor.
  - by_evaluation.
Defined.

Lemma operations_keep_email_text_unique_witness :
  email_text_unique (inMemoryUsers (perform (CreateUser U2 3 3 bob) with_task).2).
Proof.
  apply (operations_keep_email_text_unique (P:=empty_platform)); [reflexivity|].
  replace (inMemoryUsers with_task) with [newUser U1 1 1 ann]
    by (by_evaluation).
  intros [|i] [|j] u v e Hi Hj; simpl in *; try done.
Defined.

Lemma createTask_creates_witness :
  ∃ u, u ∈ inMemoryUsers with_ann ∧ id_text u = U1
    ∧ createTask T1 2 2 report with_ann
      = (Ok (ReplyData (DataTask (with_user (newTask T1 2 2 report) (Some u)))),
         mkStore true (inMemoryUsers with_ann)
                 (inMemoryTasks with_ann ++ [newTask T1 2 2 report])
                 (database with_ann))
    ∧ newTask T1 2 2 report !! "status" = Some (VStr "pending").
Proof.
  destruct (createTask_creates (P:=empty_platform) with_ann T1 2 2 report)
    as (u & Hin & Hid & Hc & _ & _ & Hst & _).
  - reflexivity.
  - by_evaluation.
  - by_evaluation.
  - exists u. split_and!; [exact Hin|exact Hid|exact Hc|]. apply Hst. reflexivity.
Defined.

Lemma updateTask_merges_witness :
  let payload : Doc := {[ "status" := VStr "bogus" ]} in
  let updatedTask : Doc := <["updatedAt" := VDate 3]> (payload ∪ task1) in
  updateTask 3 T1 payload with_task
  = (Ok (ReplyData (DataTask (with_user updatedTask (Some (newUser U1 1 1 ann))))),
     mkStore true (inMemoryUsers with_task)
             (<[0%nat := updatedTask]> (inMemoryTasks with_task)) (database with_task))
  ∧ updatedTask !! "status" = Some (VStr "bogus").
Proof.
  intros payload updatedTask.
  destruct (updateTask_merges (P:=empty_platform) with_task 3 T1 0%nat task1 payload
              (Some (newUser U1 1 1 ann))) as (Hu & _ & Htake & _).
  - reflexivity.
  - by_evaluation.
  - by_evaluation.
  - intros H. vm_compute in H. discriminate H.
  - by_evaluation.
  - split; [exact Hu|]. apply Htake; [discriminate|reflexivity].
Defined.

Lemma updateTaskStatus_then_getTaskById_witness :
  let updatedTask : Doc :=
    <["updatedAt" := VDate 3]> (<["status" := VStr "completed"]> task1) in
  let st' := (updateTaskStatus 3 T1 "completed" with_task).2 in
  getTaskById T1 st'
  = (Ok (ReplyData (DataTask
           (with_user_or_id updatedTask (Some (newUser U1 1 1 ann))))), st')
  ∧ with_user_or_id updatedTask (Some (newUser U1 1 1 ann)) !! "status"
    = Some (PVal (VStr "completed")).
Proof.
  intros updatedTask st'.
  destruct (updateTaskStatus_then_getTaskById (P:=empty_platform) with_task 3 T1
              "completed" 0%nat task1 (Some (newUser U1 1 1 ann))) as (Hg & Hs & _).
  - unfold TaskStatus.values. do 2 apply list_elem_of_further. apply list_elem_of_here.
  - reflexivity.
  - by_evaluation.
  - by_evaluation.
  - by_evaluation.
  - split; [exact Hg|exact Hs].
Defined.

Lemma moveTaskToUser_moves_witness :
  let updatedTask : Doc :=
    <["updatedAt" := VDate 4]> (<["user" := VStr U2]> task1) in
  ∃ u, u ∈ inMemoryUsers with_bob ∧ id_text u = U2
    ∧ moveTaskToUser 4 T1 U2 with_bob
      = (Ok (ReplyData (DataTask (with_user updatedTask (Some u)))),
         mkStore true (inMemoryUsers with_bob)
                 (<[0%nat := updatedTask]> (inMemoryTasks with_bob))
                 (database with_bob)).
Proof.
  intros updatedTask.
  destruct (moveTaskToUser_moves (P:=empty_platform) with_bob 4 T1 U2 0%nat task1)
    as (u & Hin & _ & Hid & Hm & _).
  - reflexivity.
  - by_evaluation.
  - by_evaluation.
  - by_evaluation.
  - exists u. split_and!; [exact Hin|exact Hid|exact Hm].
Defined.

Lemma deleteTask_then_getTaskById_witness :
  ∃ kept,
    let st' := mkStore true (inMemoryUsers with_task) kept (database with_task) in
    deleteTask T1 with_task
    = (Ok (ReplyMessage ("Tarea con ID " +:+ T1 +:+ " eliminada correctamente")), st')
    ∧ getTaskById T1 st'
      = (Throw (AppError.notFound ("Tarea con ID " +:+ T1 +:+ " no encontrada")), st')
    ∧ sublist kept (inMemoryTasks with_task)
    ∧ (∀ t, t ∈ kept ↔ t ∈ inMemoryTasks with_task ∧ id_text t ≠ T1).
Proof.
  apply (deleteTask_then_getTaskById (P:=empty_platform) with_task T1 0%nat).
  - reflexivity.
  - replace (inMemoryTasks with_task) with [task1] by (by_evaluation).
    repeat constructor.
  - by_evaluation.
Defined.

Lemma getAllTasks_agrees_with_getTaskById_witness :
  ∃ l, List.length l = List.length (inMemoryTasks with_task)
       ∧ ∀ y, l !! 0%nat = Some y →
              getTaskById T1 with_task = (Ok (ReplyData (DataTask y)), with_task).
Proof.
  destruct (getAllTasks_agrees_with_getTaskById (P:=empty_platform) with_task with_task
              (ReplyData (DataTasks [with_user_or_id task1 (Some (newUser U1 1 1 ann))])))
    as (_ & l & _ & Hlen & _ & Hget).
  - reflexivity.
  - by_evaluation.
  - exists l. split; [exact Hlen|]. intros y. apply (Hget T1 0%nat y).
    by_evaluation.
Defined.

Lemma reads_leave_store_witness :
  (perform (GetTaskById T1) with_task).2 = with_task.
Proof. apply (reads_leave_store (P:=empty_platform)). reflexivity. Defined.

Lemma mode_and_stores_separate_witness :
  database (perform (DeleteUser U1) with_task).2 = database with_task
  ∧ inMemoryTasks (perform (CreateTask T1 2 2 report) durable0).2
    = inMemoryTasks durable0.
Proof.
  split.
  - apply (mode_and_stores_separate (P:=empty_platform) (DeleteUser U1) with_task).
    reflexivity.
  - apply (mode_and_stores_separate (P:=empty_platform)
             (CreateTask T1 2 2 report) durable0).
    reflexivity.
Defined.

Lemma failed_operations_write_nothing_witness :
  (perform (CreateUser U2 2 2 ann) with_ann).2 = with_ann.
Proof.
  apply (failed_operations_write_nothing (P:=empty_platform)
           (CreateUser U2 2 2 ann) with_ann (duplicate_email (VStr "ann@example.com"))).
  - reflexivity.
  - reflexivity.
  - by_evaluation.
Defined.
